(** * A shallow embedding of the ndnSIM forwarding core (ndn-l3-protocol.cc)

    Faces, names and nonces are natural numbers (names are lists of
    components).  A node is a record holding the face list, the PIT, the FIB,
    the content store, the configuration flags and two observation logs: the
    packets handed to [face->Send] and the events fired on the trace sources
    ([m_inInterests], [m_dropInterests], [m_outNacks], ...).

    [NdnL3Protocol::Receive], [AddFace], [RemoveFace], [GetFace],
    [GetFaceByNetDevice], [GetNFaces], [DoDispose] and [NotifyNewAggregate]
    are live code.  The
    Interest, Data, NACK and give-up pipelines are the routines written in the
    block of the same file that is kept as comments (the live [Receive]
    delegates to the forwarding strategy, which carries them).  The PIT, FIB
    and content-store primitives they call are not part of the file; their
    definitions below say so. *)

From Stdlib Require Import String List Bool Arith Lia.
Import ListNotations.
Open Scope list_scope.

(** ** Basic data *)

Definition Face := nat.
Definition Name := list nat.
Definition Nonce := nat.
Definition Time := nat.
Definition Payload := list nat.

Fixpoint name_eqb (a b : Name) : bool :=
  match a, b with
  | [], [] => true
  | x :: a', y :: b' => Nat.eqb x y && name_eqb a' b'
  | _, _ => false
  end.

Fixpoint is_prefix (p n : Name) : bool :=
  match p, n with
  | [], _ => true
  | x :: p', y :: n' => Nat.eqb x y && is_prefix p' n'
  | _, [] => false
  end.

(** NdnInterestHeader::NackType *)
Inductive NackType := NORMAL_INTEREST | NACK_LOOP | NACK_GIVEUP_PIT.

Definition nack_eqb (a b : NackType) : bool :=
  match a, b with
  | NORMAL_INTEREST, NORMAL_INTEREST | NACK_LOOP, NACK_LOOP
  | NACK_GIVEUP_PIT, NACK_GIVEUP_PIT => true
  | _, _ => false
  end.

Record NdnInterestHeader := mkInterestHeader {
  ih_name : Name;
  ih_nonce : Nonce;
  ih_lifetime : Time;
  ih_nack : NackType }.

(** header->SetNack (t) *)
Definition SetNack (h : NdnInterestHeader) (t : NackType) : NdnInterestHeader :=
  mkInterestHeader (ih_name h) (ih_nonce h) (ih_lifetime h) t.

Record NdnContentObjectHeader := mkContentObjectHeader { ch_name : Name }.

(** Packets as they are handed to [Send]: an Interest (possibly NACK-tagged)
    or a content object with its payload. *)
Inductive Packet :=
| PInterest (h : NdnInterestHeader)
| PData (h : NdnContentObjectHeader) (payload : Payload).

(** NdnFibFaceMetric::Status *)
Inductive Status := NDN_FIB_GREEN | NDN_FIB_YELLOW | NDN_FIB_RED.

Record NdnFibFaceMetric := mkFaceMetric {
  m_face : Face;
  m_status : Status;
  m_sRtt : Time }.

Record NdnFibEntry := mkFibEntry {
  fib_prefix : Name;
  fib_faces : list NdnFibFaceMetric }.

Record NdnPitEntryIncomingFace := mkIncoming {
  in_face : Face;
  in_arrivalTime : Time }.

Record NdnPitEntryOutgoingFace := mkOutgoing {
  out_face : Face;
  out_sendTime : Time;
  out_waitingInVain : bool }.

Record NdnPitEntry := mkPitEntry {
  pe_name : Name;
  pe_fibPrefix : Name;          (* back-reference to the FIB entry *)
  pe_incoming : list NdnPitEntryIncomingFace;
  pe_outgoing : list NdnPitEntryOutgoingFace;
  pe_seenNonces : list Nonce;
  pe_expireTime : Time;
  pe_maxRetxCount : nat;
  pe_erased : bool }.

(** Drop reasons reported on the drop trace sources. *)
Inductive DropReason :=
| DUPLICATED | SUPPRESSED | NO_FACES | NON_DUPLICATED | AFTER_SATISFIED
| UNSOLICITED | PIT_LIMIT.

(** Events fired on the trace sources, and NS_LOG_ERROR messages. *)
Inductive TraceEvent :=
| InInterest (h : NdnInterestHeader) (f : Face)
| DropInterest (h : NdnInterestHeader) (r : DropReason) (f : Face)
| OutNack (h : NdnInterestHeader) (f : Face)
| InNack (h : NdnInterestHeader) (f : Face)
| DropNack (h : NdnInterestHeader) (r : DropReason) (f : Face)
| InData (h : NdnContentObjectHeader) (f : Face)
| OutData (h : NdnContentObjectHeader) (f : Face)
| DropData (h : NdnContentObjectHeader) (r : DropReason) (f : Face)
| LogError (msg : string).

Record Node := mkNode {
  m_faces : list Face;                 (* NdnFaceList m_faces *)
  m_handlers : list Face;              (* faces whose callback is Receive *)
  m_faceIds : list (Face * nat);       (* face->SetId *)
  m_faceCounter : nat;
  m_up : list Face;                    (* faces for which IsUp () holds *)
  m_pit : list NdnPitEntry;
  m_pitMaxSize : nat;                  (* 0: unlimited *)
  m_fib : list NdnFibEntry;
  m_contentStore : list (NdnContentObjectHeader * Payload);
  m_now : Time;                        (* Simulator::Now () *)
  m_nacksEnabled : bool;
  m_cacheUnsolicitedData : bool;
  m_sent : list (Face * Packet);       (* face->Send (packet), in order *)
  m_trace : list TraceEvent }.

(** Field updates. *)
Definition set_faces (st : Node) (fs hs : list Face) (ids : list (Face * nat)) (c : nat) : Node :=
  mkNode fs hs ids c (m_up st) (m_pit st) (m_pitMaxSize st) (m_fib st)
    (m_contentStore st) (m_now st) (m_nacksEnabled st) (m_cacheUnsolicitedData st)
    (m_sent st) (m_trace st).

Definition set_pit (st : Node) (p : list NdnPitEntry) : Node :=
  mkNode (m_faces st) (m_handlers st) (m_faceIds st) (m_faceCounter st) (m_up st) p
    (m_pitMaxSize st) (m_fib st) (m_contentStore st) (m_now st) (m_nacksEnabled st)
    (m_cacheUnsolicitedData st) (m_sent st) (m_trace st).

Definition set_fib (st : Node) (fb : list NdnFibEntry) : Node :=
  mkNode (m_faces st) (m_handlers st) (m_faceIds st) (m_faceCounter st) (m_up st)
    (m_pit st) (m_pitMaxSize st) fb (m_contentStore st) (m_now st) (m_nacksEnabled st)
    (m_cacheUnsolicitedData st) (m_sent st) (m_trace st).

Definition set_cs (st : Node) (cs : list (NdnContentObjectHeader * Payload)) : Node :=
  mkNode (m_faces st) (m_handlers st) (m_faceIds st) (m_faceCounter st) (m_up st)
    (m_pit st) (m_pitMaxSize st) (m_fib st) cs (m_now st) (m_nacksEnabled st)
    (m_cacheUnsolicitedData st) (m_sent st) (m_trace st).

(** [face->Send (packet)] *)
Definition Send (st : Node) (f : Face) (p : Packet) : Node :=
  mkNode (m_faces st) (m_handlers st) (m_faceIds st) (m_faceCounter st) (m_up st)
    (m_pit st) (m_pitMaxSize st) (m_fib st) (m_contentStore st) (m_now st)
    (m_nacksEnabled st) (m_cacheUnsolicitedData st) (m_sent st ++ [(f, p)]) (m_trace st).

(** Firing a trace source (or logging an error). *)
Definition Fire (st : Node) (ev : TraceEvent) : Node :=
  mkNode (m_faces st) (m_handlers st) (m_faceIds st) (m_faceCounter st) (m_up st)
    (m_pit st) (m_pitMaxSize st) (m_fib st) (m_contentStore st) (m_now st)
    (m_nacksEnabled st) (m_cacheUnsolicitedData st) (m_sent st) (m_trace st ++ [ev]).

(** ** PIT entry primitives (NdnPitEntry)

    Modelled from the spec: NdnPitEntry is not part of the source file.  The
    incoming and outgoing containers are sets indexed by face; the seen-nonce
    container records every nonce observed for the name. *)

Definition IsNonceSeen (e : NdnPitEntry) (n : Nonce) : bool :=
  existsb (Nat.eqb n) (pe_seenNonces e).

Definition with_nonces (e : NdnPitEntry) (ns : list Nonce) : NdnPitEntry :=
  mkPitEntry (pe_name e) (pe_fibPrefix e) (pe_incoming e) (pe_outgoing e) ns
    (pe_expireTime e) (pe_maxRetxCount e) (pe_erased e).

Definition with_incoming (e : NdnPitEntry) (i : list NdnPitEntryIncomingFace) : NdnPitEntry :=
  mkPitEntry (pe_name e) (pe_fibPrefix e) i (pe_outgoing e) (pe_seenNonces e)
    (pe_expireTime e) (pe_maxRetxCount e) (pe_erased e).

Definition with_outgoing (e : NdnPitEntry) (o : list NdnPitEntryOutgoingFace) : NdnPitEntry :=
  mkPitEntry (pe_name e) (pe_fibPrefix e) (pe_incoming e) o (pe_seenNonces e)
    (pe_expireTime e) (pe_maxRetxCount e) (pe_erased e).

Definition AddSeenNonce (e : NdnPitEntry) (n : Nonce) : NdnPitEntry :=
  with_nonces e (n :: pe_seenNonces e).

(** [GetIncoming ().find (face) != end ()] *)
Definition findIncoming (e : NdnPitEntry) (f : Face) : bool :=
  existsb (fun i => Nat.eqb (in_face i) f) (pe_incoming e).

(** [GetOutgoing ().find (face)] *)
Definition findOutgoing (e : NdnPitEntry) (f : Face) : option NdnPitEntryOutgoingFace :=
  find (fun o => Nat.eqb (out_face o) f) (pe_outgoing e).

(** Inserting into a face-indexed set: nothing happens when present. *)
Definition AddIncoming (e : NdnPitEntry) (f : Face) (now : Time) : NdnPitEntry :=
  if findIncoming e f then e
  else with_incoming e (pe_incoming e ++ [mkIncoming f now]).

Definition RemoveIncoming (e : NdnPitEntry) (f : Face) : NdnPitEntry :=
  with_incoming e (filter (fun i => negb (Nat.eqb (in_face i) f)) (pe_incoming e)).

Definition ClearIncoming (e : NdnPitEntry) : NdnPitEntry := with_incoming e [].

Definition ClearOutgoing (e : NdnPitEntry) : NdnPitEntry := with_outgoing e [].

Definition SetWaitingInVain (e : NdnPitEntry) (f : Face) : NdnPitEntry :=
  with_outgoing e
    (map (fun o => if Nat.eqb (out_face o) f
                   then mkOutgoing (out_face o) (out_sendTime o) true else o)
         (pe_outgoing e)).

Definition AreAllOutgoingInVain (e : NdnPitEntry) : bool :=
  forallb out_waitingInVain (pe_outgoing e).

(** The expiry deadline only moves forward. *)
Definition UpdateLifetime (e : NdnPitEntry) (now lifetime : Time) : NdnPitEntry :=
  mkPitEntry (pe_name e) (pe_fibPrefix e) (pe_incoming e) (pe_outgoing e)
    (pe_seenNonces e) (Nat.max (pe_expireTime e) (now + lifetime))
    (pe_maxRetxCount e) (pe_erased e).

Definition IncreaseAllowedRetxCount (e : NdnPitEntry) : NdnPitEntry :=
  mkPitEntry (pe_name e) (pe_fibPrefix e) (pe_incoming e) (pe_outgoing e)
    (pe_seenNonces e) (pe_expireTime e) (S (pe_maxRetxCount e)) (pe_erased e).

Definition RemoveAllReferencesToFace (f : Face) (e : NdnPitEntry) : NdnPitEntry :=
  with_outgoing (RemoveIncoming e f)
    (filter (fun o => negb (Nat.eqb (out_face o) f)) (pe_outgoing e)).

Definition with_erased (e : NdnPitEntry) : NdnPitEntry :=
  mkPitEntry (pe_name e) (pe_fibPrefix e) (pe_incoming e) (pe_outgoing e)
    (pe_seenNonces e) (pe_expireTime e) (pe_maxRetxCount e) true.

(** ** The PIT (NdnPit)

    Modelled from the spec: NdnPit is not part of the source file.  Entries
    are keyed by name; a [Ptr<NdnPitEntry>] is represented by the entry's
    name, and the entry it designates is read back from the table. *)

Definition pit_lookup (p : list NdnPitEntry) (n : Name) : option NdnPitEntry :=
  find (fun e => name_eqb (pe_name e) n) p.

(** Writing back a modified entry. *)
Definition pit_set (st : Node) (e : NdnPitEntry) : Node :=
  set_pit st (map (fun e' => if name_eqb (pe_name e') (pe_name e) then e else e') (m_pit st)).

(** [m_pit->MarkErased (entry)]: the entry is kept, flagged as erased, until
    it is pruned later. *)
Definition MarkErased (st : Node) (n : Name) : Node :=
  set_pit st (map (fun e => if name_eqb (pe_name e) n then with_erased e else e) (m_pit st)).

(** ** The FIB (NdnFib, NdnFibEntry)

    Modelled from the spec: the FIB is not part of the source file. *)

Definition fib_find (fb : list NdnFibEntry) (prefix : Name) : option NdnFibEntry :=
  find (fun fe => name_eqb (fib_prefix fe) prefix) fb.

Definition LongestPrefixMatch (fb : list NdnFibEntry) (n : Name) : option NdnFibEntry :=
  fold_left (fun best fe =>
      if is_prefix (fib_prefix fe) n then
        match best with
        | None => Some fe
        | Some b => if length (fib_prefix b) <? length (fib_prefix fe) then Some fe else best
        end
      else best) fb None.

Definition fib_modify (st : Node) (prefix : Name) (f : Face)
    (upd : NdnFibFaceMetric -> NdnFibFaceMetric) : Node :=
  set_fib st
    (map (fun fe => if name_eqb (fib_prefix fe) prefix
                    then mkFibEntry (fib_prefix fe)
                           (map (fun m => if Nat.eqb (m_face m) f then upd m else m)
                                (fib_faces fe))
                    else fe) (m_fib st)).

(** [GetFibEntry ()->UpdateStatus (face, status)] *)
Definition UpdateStatus (st : Node) (prefix : Name) (f : Face) (s : Status) : Node :=
  fib_modify st prefix f (fun m => mkFaceMetric (m_face m) s (m_sRtt m)).

(** [GetFibEntry ()->UpdateFaceRtt (face, sample)]: smoothed estimate. *)
Definition UpdateFaceRtt (st : Node) (prefix : Name) (f : Face) (sample : Time) : Node :=
  fib_modify st prefix f (fun m => mkFaceMetric (m_face m) (m_status m) ((7 * m_sRtt m + sample) / 8)).

(** The metric the FIB entry [prefix] records for face [f]. *)
Definition fib_metric (fb : list NdnFibEntry) (prefix : Name) (f : Face)
    : option NdnFibFaceMetric :=
  match fib_find fb prefix with
  | Some fe => find (fun m => Nat.eqb (m_face m) f) (fib_faces fe)
  | None => None
  end.

(** The status the FIB entry [prefix] records for face [f]. *)
Definition fib_status (fb : list NdnFibEntry) (prefix : Name) (f : Face) : option Status :=
  match fib_find fb prefix with
  | Some fe => option_map m_status (find (fun m => Nat.eqb (m_face m) f) (fib_faces fe))
  | None => None
  end.

(** ** The content store (NdnContentStore)

    Modelled from the spec: lookup by name and insert-or-update. *)

Definition cs_lookup (st : Node) (n : Name) : option (NdnContentObjectHeader * Payload) :=
  find (fun c => name_eqb (ch_name (fst c)) n) (m_contentStore st).

Definition cs_add (st : Node) (h : NdnContentObjectHeader) (payload : Payload) : Node :=
  set_cs st ((h, payload) :: filter (fun c => negb (name_eqb (ch_name (fst c)) (ch_name h)))
                                    (m_contentStore st)).

(** [m_pit->Create (header)]: fails when the table is full or no route
    covers the name. *)
Definition PitCreate (st : Node) (h : NdnInterestHeader) : Node * option NdnPitEntry :=
  if (0 <? m_pitMaxSize st) && (m_pitMaxSize st <=? length (m_pit st)) then (st, None)
  else match LongestPrefixMatch (m_fib st) (ih_name h) with
       | None => (st, None)
       | Some fe =>
           let e := mkPitEntry (ih_name h) (fib_prefix fe) [] [] []
                      (m_now st + ih_lifetime h) 0 false in
           (set_pit st (m_pit st ++ [e]), Some e)
       end.

Definition pit_update (st : Node) (n : Name) (g : NdnPitEntry -> NdnPitEntry) : Node :=
  match pit_lookup (m_pit st) n with
  | Some e => pit_set st (g e)
  | None => st
  end.

(** Lookup, then creation on a miss (first step of OnInterest). *)
Definition PitLookupOrCreate (st : Node) (h : NdnInterestHeader) : Node * option NdnPitEntry :=
  match pit_lookup (m_pit st) (ih_name h) with
  | Some e => (st, Some e)
  | None => PitCreate st h
  end.

(** ** The dispatcher (NdnL3Protocol::Receive)

    NdnHeaderHelper::Type *)
Inductive HeaderType := INTEREST | CONTENT_OBJECT.

(** Exceptions raised by header classification and deserialization. *)
Inductive NdnException := NdnUnknownHeaderException | NdnDecodingException.

Inductive Except (A : Type) := Ok (a : A) | Raise (e : NdnException).
Arguments Ok {A} a.
Arguments Raise {A} e.

(** An inbound packet, given by what the lower-level decoders make of it:
    the header type [GetNdnHeaderType] reports, the Interest header
    [RemoveHeader] extracts and the bytes left behind, the content-object
    header and trailer, and the payload. *)
Record RawPacket := mkRawPacket {
  rp_type : Except HeaderType;
  rp_interestHeader : Except NdnInterestHeader;
  rp_sizeAfterInterestHeader : nat;
  rp_contentHeader : Except NdnContentObjectHeader;
  rp_contentTrailer : Except unit;
  rp_payload : Payload }.

(** Outcome of a call: normal return, a failed NS_ASSERT (abort), an
    exception leaving the function, or undefined behaviour. *)
Inductive Outcome (A : Type) :=
| Done (a : A)
| AssertFailed (msg : string)
| Uncaught (e : NdnException)
| Undefined.
Arguments Done {A} a.
Arguments AssertFailed {A} msg%_string.
Arguments Uncaught {A} e.
Arguments Undefined {A}.

(** NS_ASSERT_MSG: checked only in builds with assertions enabled. *)
Definition NS_ASSERT_MSG {A} (asserts cond : bool) (msg : string) (k : unit -> Outcome A)
    : Outcome A :=
  if asserts && negb cond then AssertFailed msg else k tt.

Definition IsUp (st : Node) (f : Face) : bool := existsb (Nat.eqb f) (m_up st).

(** ** The forwarding pipelines

    [PropagateInterest] is the forwarding strategy's decision routine: given
    the node, the PIT entry, the incoming face, the header and the packet, it
    returns the updated node (new outgoing entries, packets sent) and whether
    the Interest went out on at least one face. *)

Section Forwarding.

Variable PropagateInterest :
  Node -> Name -> Face -> NdnInterestHeader -> Packet -> Node * bool.

(** NdnL3Protocol::GiveUpInterest *)
Definition GiveUpInterest (st : Node) (n : Name) (h : NdnInterestHeader) : Node :=
  if m_nacksEnabled st then
    let h' := SetNack h NACK_GIVEUP_PIT in
    match pit_lookup (m_pit st) n with
    | Some e =>
        let st1 := fold_left (fun s i => Fire (Send s (in_face i) (PInterest h'))
                                              (OutNack h' (in_face i)))
                             (pe_incoming e) st in
        MarkErased (pit_set st1 (ClearOutgoing (ClearIncoming e))) n
    | None => st
    end
  else st.

(** NdnL3Protocol::OnDataDelayed *)
Definition OnDataDelayed (st : Node) (h : NdnContentObjectHeader) (payload : Payload)
    (packet : Packet) : Node :=
  match pit_lookup (m_pit st) (ch_name h) with
  | Some e =>
      let st1 := fold_left (fun s i => Fire (Send s (in_face i) packet) (OutData h (in_face i)))
                           (pe_incoming e) st in
      if 0 <? length (pe_incoming e) then
        MarkErased (pit_set st1 (ClearOutgoing (ClearIncoming e))) (pe_name e)
      else st1
  | None => st
  end.

(** NdnL3Protocol::OnData *)
Definition OnData (st0 : Node) (f : Face) (h : NdnContentObjectHeader) (payload : Payload)
    (packet : Packet) : Node :=
  let st := Fire st0 (InData h f) in
  match pit_lookup (m_pit st) (ch_name h) with
  | Some e =>
      match findOutgoing e f with
      | Some out =>
          let st := UpdateFaceRtt st (pe_fibPrefix e) f (m_now st - out_sendTime out) in
          let st := UpdateStatus st (pe_fibPrefix e) f NDN_FIB_GREEN in
          let st := cs_add st h payload in
          let e := RemoveIncoming e f in
          let st := pit_set st e in
          if length (pe_incoming e) =? 0 then MarkErased st (pe_name e)
          else OnDataDelayed st h payload packet
      | None =>
          if m_cacheUnsolicitedData st then cs_add st h payload
          else Fire st (LogError "PIT entry is valid, but outgoing entry for interface doesn't exist")
      end
  | None =>
      if m_cacheUnsolicitedData st then cs_add st h payload
      else Fire st (DropData h UNSOLICITED f)
  end.

(** The propagation step closing OnInterest: one retry for a
    retransmission, give-up when nothing went out. *)
Definition PropagateStage (st : Node) (n : Name) (f : Face) (h : NdnInterestHeader)
    (packet : Packet) (isRetransmitted : bool) : Node :=
  let (st1, propagated) := PropagateInterest st n f h packet in
  let (st2, propagated2) :=
    if negb propagated && isRetransmitted
    then PropagateInterest (pit_update st1 n IncreaseAllowedRetxCount) n f h packet
    else (st1, propagated) in
  if propagated2 then st2
  else GiveUpInterest (Fire st2 (DropInterest h NO_FACES f)) n h.

(** NdnL3Protocol::OnInterest *)
Definition OnInterest (st0 : Node) (f : Face) (h : NdnInterestHeader) (packet : Packet) : Node :=
  let st := Fire st0 (InInterest h f) in
  match PitLookupOrCreate st h with
  | (st, None) => Fire st (DropInterest h PIT_LIMIT f)
  | (st, Some e) =>
      let isNew := (length (pe_incoming e) =? 0) && (length (pe_outgoing e) =? 0) in
      let isDuplicated := IsNonceSeen e (ih_nonce h) in
      let e := if isDuplicated then e else AddSeenNonce e (ih_nonce h) in
      let isRetransmitted := findIncoming e f in
      let outFace := findOutgoing e f in
      let e := if isRetransmitted then e else AddIncoming e f (m_now st) in
      let st := pit_set st e in
      if isDuplicated then
        let st := Fire st (DropInterest h DUPLICATED f) in
        if m_nacksEnabled st then
          let h' := SetNack h NACK_LOOP in
          Fire (Send st f (PInterest h')) (OutNack h' f)
        else st
      else
        match cs_lookup st (ih_name h) with
        | Some (ch, payload) => OnDataDelayed st ch payload (PData ch payload)
        | None =>
            let st := pit_set st (UpdateLifetime e (m_now st) (ih_lifetime h)) in
            match outFace with
            | Some _ =>
                PropagateStage (UpdateStatus st (pe_fibPrefix e) f NDN_FIB_YELLOW)
                               (pe_name e) f h packet isRetransmitted
            | None =>
                if negb isNew && negb isRetransmitted
                then Fire st (DropInterest h SUPPRESSED f)
                else PropagateStage st (pe_name e) f h packet isRetransmitted
            end
        end
  end.

(** The last step of OnNack: propagation of the Interest with the NACK tag
    cleared, give-up when nothing went out. *)
Definition NackRepropagate (st : Node) (n : Name) (f : Face) (h : NdnInterestHeader) : Node :=
  let h' := SetNack h NORMAL_INTEREST in
  let (st1, propagated) := PropagateInterest st n f h' (PInterest h') in
  if propagated then st1
  else GiveUpInterest (Fire st1 (DropNack h' NO_FACES f)) n h'.

(** NdnL3Protocol::OnNack *)
Definition OnNack (st0 : Node) (f : Face) (h : NdnInterestHeader) : Node :=
  let st := Fire st0 (InNack h f) in
  match pit_lookup (m_pit st) (ih_name h) with
  | None => Fire st (DropNack h NON_DUPLICATED f)
  | Some e =>
      match findOutgoing e f with
      | None => st
      | Some _ =>
          let e := SetWaitingInVain e f in
          let e := if nack_eqb (ih_nack h) NACK_GIVEUP_PIT then RemoveIncoming e f else e in
          let st := pit_set st e in
          let st := UpdateStatus st (pe_fibPrefix e) f NDN_FIB_YELLOW in
          if length (pe_incoming e) =? 0 then Fire st (DropNack h AFTER_SATISFIED f)
          else if negb (AreAllOutgoingInVain e) then Fire st (DropNack h SUPPRESSED f)
          else NackRepropagate st (pe_name e) f h
      end
  end.

(** The [catch (NdnUnknownHeaderException)] clause; other exceptions are
    not caught. *)
Definition ReceiveCatch (asserts : bool) (st : Node) (ex : NdnException) : Outcome Node :=
  match ex with
  | NdnUnknownHeaderException =>
      NS_ASSERT_MSG asserts false "Unknown Ndn header. Should not happen"
        (fun _ => Done (Fire st (LogError "Unknown Ndn header. Should not happen")))
  | other => Uncaught other
  end.

Definition Receive (asserts : bool) (st : Node) (f : Face) (p : RawPacket) : Outcome Node :=
  if negb (IsUp st f) then Done st
  else
    match rp_type p with
    | Raise ex => ReceiveCatch asserts st ex
    | Ok INTEREST =>
        match rp_interestHeader p with
        | Raise ex => ReceiveCatch asserts st ex
        | Ok h =>
            NS_ASSERT_MSG asserts (rp_sizeAfterInterestHeader p =? 0)
              "Payload of Interests should be zero"
              (fun _ => Done (OnInterest st f h (PInterest h)))
        end
    | Ok CONTENT_OBJECT =>
        match rp_contentHeader p with
        | Raise ex => ReceiveCatch asserts st ex
        | Ok h =>
            match rp_contentTrailer p with
            | Raise ex => ReceiveCatch asserts st ex
            | Ok _ => Done (OnData st f h (rp_payload p) (PData h (rp_payload p)))
            end
        end
    end.

End Forwarding.

(** ** The face registry *)


(** [m_faces.erase (find (begin, end, face))] when the face is found. *)
Fixpoint remove_first (f : Face) (l : list Face) : list Face :=
  match l with
  | [] => []
  | g :: l' => if Nat.eqb g f then l' else g :: remove_first f l'
  end.

(** [GetFibEntry ()->m_faces.size () == 1 &&
     GetFibEntry ()->m_faces.begin ()->m_face == face] *)
Definition fibOnlyFace (fb : list NdnFibEntry) (f : Face) (e : NdnPitEntry) : bool :=
  match fib_find fb (pe_fibPrefix e) with
  | Some fe =>
      match fib_faces fe with
      | [m] => Nat.eqb (m_face m) f
      | _ => false
      end
  | None => false
  end.

(** NdnL3Protocol::RemoveFace *)
Definition RemoveFace (asserts : bool) (st : Node) (f : Face) : Outcome Node :=
  let st1 := set_faces st (m_faces st) (filter (fun g => negb (Nat.eqb g f)) (m_handlers st))
                       (m_faceIds st) (m_faceCounter st) in
  let pit1 := map (RemoveAllReferencesToFace f) (m_pit st1) in
  let entriesToRemove := filter (fibOnlyFace (m_fib st1) f) pit1 in
  let st2 := fold_left (fun s e => MarkErased s (pe_name e)) entriesToRemove (set_pit st1 pit1) in
  if existsb (Nat.eqb f) (m_faces st2)
  then Done (set_faces st2 (remove_first f (m_faces st2)) (m_handlers st2)
                       (m_faceIds st2) (m_faceCounter st2))
  else if asserts then AssertFailed "Attempt to remove face that doesn't exist"
  else Undefined.

(** [face->GetId ()]: the id the last [SetId] gave the face ([AddFace]
    records the newest one first); [None] for a face never given one. *)
Definition GetId (st : Node) (f : Face) : option nat :=
  option_map snd (find (fun p => Nat.eqb (fst p) f) (m_faceIds st)).

(** NdnL3Protocol::GetFace: the first face of the list whose id is
    [index], by linear search; 0 (here [None]) when there is none. *)
Definition GetFace (st : Node) (index : nat) : option Face :=
  find (fun f => match GetId st f with Some i => Nat.eqb i index | None => false end)
       (m_faces st).


(** A net device is a number.  [DynamicCast<NdnNetDeviceFace> (face)] and
    [GetNetDevice ()] are given by [devOf]: [None] for a face that is not a
    net-device face, [Some d] for one bound to device [d]. *)
Definition NetDevice := nat.

(** NdnL3Protocol::GetFaceByNetDevice *)
Definition GetFaceByNetDevice (devOf : Face -> option NetDevice) (st : Node)
    (netDevice : NetDevice) : option Face :=
  find (fun f => match devOf f with
                 | None => false
                 | Some d => Nat.eqb d netDevice
                 end) (m_faces st).

(** The two pointers [NotifyNewAggregate] and [DoDispose] manage, by
    whether they are set. *)
Record L3Links := mkLinks { l_node : bool; l_forwardingStrategy : bool }.

(** What the object aggregate answers to [GetObject<Node> ()] and
    [GetObject<NdnForwardingStrategy> ()]. *)
Record Aggregate := mkAggregate { agg_node : bool; agg_strategy : bool }.


(** NdnL3Protocol::NotifyNewAggregate *)
Definition NotifyNewAggregate (asserts : bool) (agg : Aggregate) (l : L3Links)
    : Outcome L3Links :=
  let fetchStrategy (l1 : L3Links) : Outcome L3Links :=
    if negb (l_forwardingStrategy l1)
    then Done (mkLinks (l_node l1) (agg_strategy agg))
    else Done l1 in
  if negb (l_node l) then
    let l1 := mkLinks (agg_node agg) (l_forwardingStrategy l) in
    if l_node l1 then
      NS_ASSERT_MSG asserts (l_forwardingStrategy l1)
        "Forwarding strategy should be aggregated before NdnL3Protocol"
        (fun _ => fetchStrategy l1)
    else fetchStrategy l1
  else fetchStrategy l.

(** An object joining the aggregate of the protocol. *)
Inductive AggObject := ObjNode | ObjStrategy | ObjOther.

Definition agg_add (agg : Aggregate) (o : AggObject) : Aggregate :=
  match o with
  | ObjNode => mkAggregate true (agg_strategy agg)
  | ObjStrategy => mkAggregate (agg_node agg) true
  | ObjOther => agg
  end.

(** Modelled from ns-3 (Object::AggregateObject, not part of the file):
    each object joining the aggregate triggers [NotifyNewAggregate] on the
    protocol, which then sees the aggregate with that object in it. *)
Fixpoint AggregateAll (asserts : bool) (agg : Aggregate) (l : L3Links)
    (objs : list AggObject) : Outcome L3Links :=
  match objs with
  | [] => Done l
  | o :: objs' =>
      let agg' := agg_add agg o in
      match NotifyNewAggregate asserts agg' l with
      | Done l' => AggregateAll asserts agg' l' objs'
      | other => other
      end
  end.

Definition AggObject_eqb (a b : AggObject) : bool :=
  match a, b with
  | ObjNode, ObjNode | ObjStrategy, ObjStrategy | ObjOther, ObjOther => true
  | _, _ => false
  end.

(** Whether the node joins the aggregate before any forwarding strategy. *)
Fixpoint node_before_strategy (objs : list AggObject) : bool :=
  match objs with
  | [] => false
  | ObjNode :: _ => true
  | ObjStrategy :: _ => false
  | ObjOther :: objs' => node_before_strategy objs'
  end.



(** ** A forwarding strategy for concrete runs

    Modelled from the spec: the forwarding strategy is not part of the source
    file.  It sends the Interest to every face of the entry's FIB entry other
    than the incoming face whose status is not red, records an outgoing entry
    for each, and reports whether it sent anything. *)

Definition FloodingStrategy (st : Node) (n : Name) (f : Face) (h : NdnInterestHeader)
    (packet : Packet) : Node * bool :=
  match pit_lookup (m_pit st) n with
  | None => (st, false)
  | Some e =>
      let targets :=
        match fib_find (m_fib st) (pe_fibPrefix e) with
        | Some fe =>
            map m_face (filter (fun m => negb (Nat.eqb (m_face m) f) &&
                                         match m_status m with NDN_FIB_RED => false | _ => true end)
                               (fib_faces fe))
        | None => []
        end in
      let st1 := fold_left (fun s g => Send s g packet) targets st in
      let e1 := with_outgoing e (pe_outgoing e ++ map (fun g => mkOutgoing g (m_now st) false) targets) in
      (pit_set st1 e1, negb (length targets =? 0))
  end.

(** ** Concrete nodes *)

(** A node with one pending Interest for name [7]: requested on faces 1, 2
    and 3, forwarded on face 4, which is the only route of the FIB entry. *)
Definition ex_entry : NdnPitEntry :=
  mkPitEntry [7] [7] [mkIncoming 1 0; mkIncoming 2 0; mkIncoming 3 0]
             [mkOutgoing 4 1 false] [55] 10 0 false.

Definition ex_node : Node :=
  mkNode [1; 2; 3; 4; 5] [1; 2; 3; 4; 5] [(1, 0); (2, 1); (3, 2); (4, 3); (5, 4)] 5
         [1; 2; 3; 4; 5] [ex_entry] 0
         [mkFibEntry [7] [mkFaceMetric 4 NDN_FIB_GREEN 8]]
         [] 3 true false [] [].

Definition ex_data : NdnContentObjectHeader := mkContentObjectHeader [7].

(** Inbound packets: an Interest for name [7] with nonce [n] and [extra]
    bytes left behind its header, and a packet whose header type is not
    recognized. *)
Definition ex_interest (n : Nonce) : NdnInterestHeader :=
  mkInterestHeader [7] n 4 NORMAL_INTEREST.

Definition raw_interest (n extra : nat) : RawPacket :=
  mkRawPacket (Ok INTEREST) (Ok (ex_interest n)) extra
              (Raise NdnUnknownHeaderException) (Raise NdnUnknownHeaderException) [].

Definition raw_unknown : RawPacket :=
  mkRawPacket (Raise NdnUnknownHeaderException) (Raise NdnUnknownHeaderException) 0
              (Raise NdnUnknownHeaderException) (Raise NdnUnknownHeaderException) [].

(** A content object whose header fails to decode. *)
Definition raw_bad_content : RawPacket :=
  mkRawPacket (Ok CONTENT_OBJECT) (Raise NdnDecodingException) 0
              (Raise NdnDecodingException) (Ok tt) [].

(** The same node with the content object [7] in its content store. *)
Definition ex_node_cs : Node := set_cs ex_node [(ex_data, [9])].

(** A loop NACK for name [7]. *)
Definition ex_nack : NdnInterestHeader := mkInterestHeader [7] 55 4 NACK_LOOP.

(** * Properties *)

(** Reducing field accesses through the node updates. *)
Ltac node_simpl :=
  cbn [m_faces m_handlers m_faceIds m_faceCounter m_up m_pit m_pitMaxSize m_fib
       m_contentStore m_now m_nacksEnabled m_cacheUnsolicitedData m_sent m_trace
       Fire Send set_pit pit_set MarkErased set_fib fib_modify UpdateStatus UpdateFaceRtt
       set_cs cs_add set_faces].

Ltac node_simpl_in H :=
  cbn [m_faces m_handlers m_faceIds m_faceCounter m_up m_pit m_pitMaxSize m_fib
       m_contentStore m_now m_nacksEnabled m_cacheUnsolicitedData m_sent m_trace
       Fire Send set_pit pit_set MarkErased set_fib fib_modify UpdateStatus UpdateFaceRtt
       set_cs cs_add set_faces] in H.


(** ** Names, lookups and write-backs *)

Lemma name_eqb_eq : forall a b, name_eqb a b = true <-> a = b.
Proof.
  induction a as [|x a IH]; destruct b as [|y b]; simpl; try (split; congruence).
  rewrite andb_true_iff, Nat.eqb_eq, IH. split; [intros [-> ->]; reflexivity|].
  intros H; inversion H; auto.
Qed.

Lemma name_eqb_refl : forall a, name_eqb a a = true.
Proof. intros a. apply name_eqb_eq. reflexivity. Qed.

Lemma pit_lookup_name : forall p n e, pit_lookup p n = Some e -> pe_name e = n /\ In e p.
Proof.
  unfold pit_lookup. intros p n e H. apply find_some in H as [Hin Heq].
  apply name_eqb_eq in Heq. auto.
Qed.

Lemma pit_lookup_set : forall st e,
  pit_lookup (m_pit (pit_set st e)) (pe_name e)
  = option_map (fun _ => e) (pit_lookup (m_pit st) (pe_name e)).
Proof.
  intros st e. unfold pit_set, set_pit, pit_lookup. cbn [m_pit].
  induction (m_pit st) as [|e' p IH]; simpl; [reflexivity|].
  destruct (name_eqb (pe_name e') (pe_name e)) eqn:E; simpl.
  - rewrite name_eqb_refl. reflexivity.
  - rewrite E. exact IH.
Qed.

Lemma pit_lookup_set_same : forall st e e0,
  pit_lookup (m_pit st) (pe_name e) = Some e0 ->
  pit_lookup (m_pit (pit_set st e)) (pe_name e) = Some e.
Proof. intros st e e0 H. rewrite pit_lookup_set, H. reflexivity. Qed.

Lemma pit_lookup_markErased : forall st n,
  pit_lookup (m_pit (MarkErased st n)) n = option_map with_erased (pit_lookup (m_pit st) n).
Proof.
  intros st n. unfold MarkErased, set_pit, pit_lookup. cbn [m_pit].
  induction (m_pit st) as [|e' p IH]; simpl; [reflexivity|].
  destruct (name_eqb (pe_name e') n) eqn:E; simpl.
  - unfold with_erased at 1. simpl. rewrite E. reflexivity.
  - rewrite E. exact IH.
Qed.

(** The fan-out loops only append to the two logs. *)
Lemma fanout_eq : forall (l : list NdnPitEntryIncomingFace) st
    (pk : NdnPitEntryIncomingFace -> Packet) (ev : NdnPitEntryIncomingFace -> TraceEvent),
  fold_left (fun s i => Fire (Send s (in_face i) (pk i)) (ev i)) l st
  = mkNode (m_faces st) (m_handlers st) (m_faceIds st) (m_faceCounter st) (m_up st)
      (m_pit st) (m_pitMaxSize st) (m_fib st) (m_contentStore st) (m_now st)
      (m_nacksEnabled st) (m_cacheUnsolicitedData st)
      (m_sent st ++ map (fun i => (in_face i, pk i)) l) (m_trace st ++ map ev l).
Proof.
  induction l as [|i l IH]; intros st pk ev; simpl.
  - rewrite !app_nil_r. destruct st; reflexivity.
  - rewrite IH. unfold Fire, Send. simpl. rewrite <- !app_assoc. reflexivity.
Qed.

Lemma map_filter_in_face : forall (l : list NdnPitEntryIncomingFace) (p : Packet) g,
  map (fun i => (in_face i, p)) (filter (fun i => negb (in_face i =? g)) l)
  = map (fun f => (f, p)) (filter (fun f => negb (f =? g)) (map in_face l)).
Proof.
  induction l as [|i l IH]; intros p g; simpl; [reflexivity|].
  destruct (negb (in_face i =? g)); simpl; rewrite IH; reflexivity.
Qed.

(** ** The satisfaction fan-out *)

Lemma OnDataDelayed_spec : forall st h payload packet e,
  pit_lookup (m_pit st) (ch_name h) = Some e ->
  pe_incoming e <> [] ->
  let st' := OnDataDelayed st h payload packet in
  m_sent st' = m_sent st ++ map (fun i => (in_face i, packet)) (pe_incoming e) /\
  pit_lookup (m_pit st') (ch_name h) = Some (with_erased (ClearOutgoing (ClearIncoming e))) /\
  m_fib st' = m_fib st /\ m_contentStore st' = m_contentStore st.
Proof.
  intros st h payload packet e Hl Hne. unfold OnDataDelayed. rewrite Hl.
  destruct (pit_lookup_name _ _ _ Hl) as [Hn _].
  rewrite fanout_eq with (pk := fun _ => packet) (ev := fun i => OutData h (in_face i)).
  destruct (pe_incoming e) as [|i0 l] eqn:Ei; [congruence|].
  cbn [length Nat.ltb Nat.leb].
  rewrite <- Ei. split; [reflexivity|]. split; [|split; reflexivity].
  - rewrite Hn, pit_lookup_markErased.
    set (e1 := ClearOutgoing (ClearIncoming e)).
    assert (Hn1 : pe_name e1 = ch_name h) by exact Hn.
    rewrite <- Hn1, pit_lookup_set. cbn [m_pit]. rewrite Hn1, Hl. reflexivity.
Qed.

(** ** Data processing *)

Lemma OnData_solicited_spec : forall st g h payload packet e out,
  pit_lookup (m_pit st) (ch_name h) = Some e ->
  findOutgoing e g = Some out ->
  filter (fun i => negb (in_face i =? g)) (pe_incoming e) <> [] ->
  let st' := OnData st g h payload packet in
  m_sent st' = m_sent st ++ map (fun i => (in_face i, packet))
                                 (filter (fun i => negb (in_face i =? g)) (pe_incoming e)) /\
  pit_lookup (m_pit st') (ch_name h)
  = Some (with_erased (ClearOutgoing (ClearIncoming (RemoveIncoming e g)))).
Proof.
  intros st g h payload packet e out Hl Ho Hne st'. subst st'.
  destruct (pit_lookup_name _ _ _ Hl) as [Hn _].
  unfold OnData. cbv zeta. cbn [m_pit Fire]. rewrite Hl, Ho.
  set (e1 := RemoveIncoming e g).
  assert (Hi1 : pe_incoming e1 = filter (fun i => negb (in_face i =? g)) (pe_incoming e))
    by reflexivity.
  assert (Hlen : (length (pe_incoming e1) =? 0) = false).
  { rewrite Hi1. destruct (filter _ _); [congruence|reflexivity]. }
  rewrite Hlen.
  assert (Hn1 : pe_name e1 = ch_name h) by exact Hn.
  match goal with
  | |- context [OnDataDelayed ?s h payload packet] => set (st5 := s)
  end.
  assert (Hl5 : pit_lookup (m_pit st5) (ch_name h) = Some e1).
  { subst st5. rewrite <- Hn1. apply pit_lookup_set_same with (e0 := e).
    rewrite Hn1. exact Hl. }
  assert (Hne1 : pe_incoming e1 <> []) by (rewrite Hi1; exact Hne).
  destruct (OnDataDelayed_spec st5 h payload packet e1 Hl5 Hne1) as [Hs [Hp _]].
  rewrite Hs, Hp, Hi1. split; reflexivity.
Qed.

Lemma OnData_no_outgoing_spec : forall st g h payload packet e,
  pit_lookup (m_pit st) (ch_name h) = Some e ->
  findOutgoing e g = None ->
  let st' := OnData st g h payload packet in
  m_sent st' = m_sent st /\ m_pit st' = m_pit st /\ m_fib st' = m_fib st.
Proof.
  intros st g h payload packet e Hl Ho st'. subst st'.
  unfold OnData. cbv zeta. cbn [m_pit Fire]. rewrite Hl, Ho.
  destruct (m_cacheUnsolicitedData (Fire st (InData h g))); repeat split.
Qed.

(** C1 (amended).  A Data packet matching a PIT entry whose incoming faces
    are F1, F2, F3 and arriving on a face with an outgoing-entry sends one
    copy to each Fi other than the arriving face, and leaves the entry erased
    with empty incoming and outgoing sets; arriving on a face without an
    outgoing-entry, it sends nothing and leaves the PIT unchanged. *)
Theorem OnData_satisfies_incoming : forall st g h payload packet e F1 F2 F3,
  pit_lookup (m_pit st) (ch_name h) = Some e ->
  map in_face (pe_incoming e) = [F1; F2; F3] ->
  NoDup [F1; F2; F3] ->
  let st' := OnData st g h payload packet in
  (forall out, findOutgoing e g = Some out ->
     m_sent st' = m_sent st ++ map (fun f => (f, packet))
                                    (filter (fun f => negb (f =? g)) [F1; F2; F3]) /\
     exists e', pit_lookup (m_pit st') (ch_name h) = Some e' /\
                pe_erased e' = true /\ pe_incoming e' = [] /\ pe_outgoing e' = []) /\
  (findOutgoing e g = None -> m_sent st' = m_sent st /\ m_pit st' = m_pit st).
Proof.
  intros st g h payload packet e F1 F2 F3 Hl Hin Hnd st'. split.
  - intros out Ho.
    assert (Hrest : filter (fun f => negb (f =? g)) [F1; F2; F3] <> []).
    { inversion Hnd as [|? ? Hn1 Hnd2]; subst. simpl.
      destruct (F1 =? g) eqn:E1; simpl; [|discriminate].
      destruct (F2 =? g) eqn:E2; simpl; [|discriminate].
      apply Nat.eqb_eq in E1, E2. subst. exfalso. apply Hn1. left. reflexivity. }
    assert (Heq := map_filter_in_face (pe_incoming e) packet g).
    rewrite Hin in Heq.
    assert (Hne : filter (fun i => negb (in_face i =? g)) (pe_incoming e) <> []).
    { intros E. rewrite E in Heq. apply Hrest.
      apply (map_eq_nil (fun f => (f, packet))). symmetry. exact Heq. }
    destruct (OnData_solicited_spec st g h payload packet e out Hl Ho Hne) as [Hs Hp].
    split.
    + subst st'. rewrite Hs, Heq. reflexivity.
    + eexists. split; [exact Hp|]. repeat split.
  - intros Ho. destruct (OnData_no_outgoing_spec st g h payload packet e Hl Ho) as [Hs [Hp _]].
    split; assumption.
Qed.

Lemma OnData_satisfies_incoming_witness :
  pit_lookup (m_pit ex_node) (ch_name ex_data) = Some ex_entry /\
  map in_face (pe_incoming ex_entry) = [1; 2; 3] /\
  NoDup [1; 2; 3] /\
  (let st' := OnData ex_node 4 ex_data [9] (PData ex_data [9]) in
   (forall out, findOutgoing ex_entry 4 = Some out ->
      m_sent st' = m_sent ex_node ++ map (fun f => (f, PData ex_data [9]))
                                         (filter (fun f => negb (f =? 4)) [1; 2; 3]) /\
      exists e', pit_lookup (m_pit st') (ch_name ex_data) = Some e' /\
                 pe_erased e' = true /\ pe_incoming e' = [] /\ pe_outgoing e' = []) /\
   (findOutgoing ex_entry 4 = None -> m_sent st' = m_sent ex_node /\ m_pit st' = m_pit ex_node)).
Proof.
  assert (H1 : pit_lookup (m_pit ex_node) (ch_name ex_data) = Some ex_entry) by reflexivity.
  assert (H2 : map in_face (pe_incoming ex_entry) = [1; 2; 3]) by reflexivity.
  assert (H3 : NoDup [1; 2; 3]).
  { repeat constructor; simpl; intuition discriminate. }
  split; [exact H1|]. split; [exact H2|]. split; [exact H3|].
  exact (OnData_satisfies_incoming ex_node 4 ex_data [9] (PData ex_data [9]) ex_entry 1 2 3 H1 H2 H3).
Defined.

(** C1 as stated fails: the same Data arriving on face 5, which has no
    outgoing-entry in the entry requested on faces 1, 2, 3, is sent nowhere
    and the entry is left pending, not erased. *)
Lemma OnData_satisfies_incoming_counterexample :
  pit_lookup (m_pit ex_node) (ch_name ex_data) = Some ex_entry /\
  map in_face (pe_incoming ex_entry) = [1; 2; 3] /\
  m_sent (OnData ex_node 5 ex_data [9] (PData ex_data [9])) = [] /\
  pit_lookup (m_pit (OnData ex_node 5 ex_data [9] (PData ex_data [9]))) [7] = Some ex_entry /\
  pe_erased ex_entry = false.
Proof. vm_compute. repeat split. Qed.

(** ** The dispatcher *)

(** C2 (amended).  When classification or deserialization of an inbound
    packet on an up face raises an exception, Receive behaves as its catch
    clause: for NdnUnknownHeaderException, NS_ASSERT_MSG (false, ...) aborts
    in a build with assertions, and with assertions compiled out the error is
    logged and the packet dropped; any other exception leaves Receive. *)
Theorem Receive_header_failure : forall PI asserts st f p ex,
  IsUp st f = true ->
  (rp_type p = Raise ex \/
   (rp_type p = Ok INTEREST /\ rp_interestHeader p = Raise ex) \/
   (rp_type p = Ok CONTENT_OBJECT /\
    (rp_contentHeader p = Raise ex \/
     exists h, rp_contentHeader p = Ok h /\ rp_contentTrailer p = Raise ex))) ->
  Receive PI asserts st f p =
  match ex with
  | NdnUnknownHeaderException =>
      if asserts then AssertFailed "Unknown Ndn header. Should not happen"
      else Done (Fire st (LogError "Unknown Ndn header. Should not happen"))
  | other => Uncaught other
  end.
Proof.
  intros PI asserts st f p ex Hup Hex. unfold Receive. rewrite Hup. cbn [negb].
  assert (Hc : ReceiveCatch asserts st ex =
               match ex with
               | NdnUnknownHeaderException =>
                   if asserts then AssertFailed "Unknown Ndn header. Should not happen"
                   else Done (Fire st (LogError "Unknown Ndn header. Should not happen"))
               | other => Uncaught other
               end).
  { destruct ex; [|reflexivity]. unfold ReceiveCatch, NS_ASSERT_MSG.
    destruct asserts; reflexivity. }
  destruct Hex as [Ht | [[Ht Hh] | [Ht [Hh | [h [Hh Htr]]]]]]; rewrite Ht.
  - exact Hc.
  - rewrite Hh. exact Hc.
  - rewrite Hh. exact Hc.
  - rewrite Hh, Htr. exact Hc.
Qed.

Lemma Receive_header_failure_witness :
  IsUp ex_node 1 = true /\
  (rp_type raw_bad_content = Raise NdnDecodingException \/
   (rp_type raw_bad_content = Ok INTEREST /\ rp_interestHeader raw_bad_content = Raise NdnDecodingException) \/
   (rp_type raw_bad_content = Ok CONTENT_OBJECT /\
    (rp_contentHeader raw_bad_content = Raise NdnDecodingException \/
     exists h, rp_contentHeader raw_bad_content = Ok h /\
               rp_contentTrailer raw_bad_content = Raise NdnDecodingException))) /\
  Receive FloodingStrategy false ex_node 1 raw_bad_content = Uncaught NdnDecodingException.
Proof.
  assert (Hup : IsUp ex_node 1 = true) by reflexivity.
  assert (Hex : rp_type raw_bad_content = Raise NdnDecodingException \/
   (rp_type raw_bad_content = Ok INTEREST /\ rp_interestHeader raw_bad_content = Raise NdnDecodingException) \/
   (rp_type raw_bad_content = Ok CONTENT_OBJECT /\
    (rp_contentHeader raw_bad_content = Raise NdnDecodingException \/
     exists h, rp_contentHeader raw_bad_content = Ok h /\
               rp_contentTrailer raw_bad_content = Raise NdnDecodingException))).
  { right. right. split; [reflexivity|]. left. reflexivity. }
  split; [exact Hup|]. split; [exact Hex|].
  exact (Receive_header_failure FloodingStrategy false ex_node 1 raw_bad_content
           NdnDecodingException Hup Hex).
Defined.

(** C2 as stated fails: an unrecognized header type aborts the node in a
    build with assertions, and a content-object header that fails to decode
    throws out of Receive in any build. *)
Lemma Receive_header_failure_counterexample :
  Receive FloodingStrategy true ex_node 1 raw_unknown
    = AssertFailed "Unknown Ndn header. Should not happen" /\
  Receive FloodingStrategy false ex_node 1 raw_bad_content = Uncaught NdnDecodingException.
Proof. split; reflexivity. Qed.

(** C10.  An Interest with bytes left after its header fails
    NS_ASSERT_MSG ("Payload of Interests should be zero") in a build with
    assertions; with no bytes left it is handed to OnInterest. *)
Theorem Receive_interest_payload : forall PI st f p h,
  IsUp st f = true ->
  rp_type p = Ok INTEREST ->
  rp_interestHeader p = Ok h ->
  (rp_sizeAfterInterestHeader p <> 0 ->
   Receive PI true st f p = AssertFailed "Payload of Interests should be zero") /\
  (rp_sizeAfterInterestHeader p = 0 ->
   forall asserts, Receive PI asserts st f p = Done (OnInterest PI st f h (PInterest h))).
Proof.
  intros PI st f p h Hup Ht Hh. unfold Receive, NS_ASSERT_MSG.
  rewrite Hup, Ht, Hh. cbn [negb]. split.
  - intros Hs. apply Nat.eqb_neq in Hs. rewrite Hs. reflexivity.
  - intros Hs asserts. rewrite Hs. cbn [Nat.eqb negb]. rewrite andb_false_r. reflexivity.
Qed.

Lemma Receive_interest_payload_witness :
  IsUp ex_node 1 = true /\ rp_type (raw_interest 56 3) = Ok INTEREST /\
  rp_interestHeader (raw_interest 56 3) = Ok (ex_interest 56) /\
  Receive FloodingStrategy true ex_node 1 (raw_interest 56 3)
    = AssertFailed "Payload of Interests should be zero".
Proof.
  assert (H1 : IsUp ex_node 1 = true) by reflexivity.
  assert (H2 : rp_type (raw_interest 56 3) = Ok INTEREST) by reflexivity.
  assert (H3 : rp_interestHeader (raw_interest 56 3) = Ok (ex_interest 56)) by reflexivity.
  split; [exact H1|]. split; [exact H2|]. split; [exact H3|].
  apply (proj1 (Receive_interest_payload FloodingStrategy ex_node 1 (raw_interest 56 3)
                  (ex_interest 56) H1 H2 H3)).
  simpl. discriminate.
Defined.

(** ** The face registry *)

Lemma name_eqb_sym : forall a b, name_eqb a b = name_eqb b a.
Proof.
  intros a b. destruct (name_eqb a b) eqn:E; symmetry.
  - apply name_eqb_eq in E. subst. apply name_eqb_refl.
  - destruct (name_eqb b a) eqn:E'; [|reflexivity].
    apply name_eqb_eq in E'. subst. rewrite name_eqb_refl in E. exact E.
Qed.

Lemma set_pit_id : forall st, set_pit st (m_pit st) = st.
Proof. destruct st; reflexivity. Qed.

Lemma set_pit_set_pit : forall st p q, set_pit (set_pit st p) q = set_pit st q.
Proof. reflexivity. Qed.

Lemma m_pit_set_pit : forall st p, m_pit (set_pit st p) = p.
Proof. reflexivity. Qed.

Lemma markErased_fold : forall l st,
  fold_left (fun s e => MarkErased s (pe_name e)) l st
  = set_pit st (map (fun e => if existsb (fun x => name_eqb (pe_name x) (pe_name e)) l
                              then with_erased e else e) (m_pit st)).
Proof.
  induction l as [|x l IH]; intros st; simpl.
  - rewrite map_id. symmetry. apply set_pit_id.
  - rewrite IH. unfold MarkErased. rewrite set_pit_set_pit, m_pit_set_pit.
    f_equal. rewrite map_map. apply map_ext. intros e. rewrite (name_eqb_sym (pe_name x) (pe_name e)).
    destruct (name_eqb (pe_name e) (pe_name x)) eqn:E; simpl;
      destruct (existsb _ l); reflexivity.
Qed.

Lemma existsb_eqb_In : forall (f : Face) l, existsb (Nat.eqb f) l = true <-> In f l.
Proof.
  intros f l. rewrite existsb_exists. split.
  - intros [x [Hx Hfx]]. apply Nat.eqb_eq in Hfx. subst. exact Hx.
  - intros Hin. exists f. split; [exact Hin|apply Nat.eqb_refl].
Qed.

Lemma remove_first_length : forall f l, In f l -> length (remove_first f l) = pred (length l).
Proof.
  induction l as [|g l IH]; simpl; [contradiction|].
  intros [Hg|Hin].
  - subst. rewrite Nat.eqb_refl. reflexivity.
  - destruct (g =? f) eqn:E; [reflexivity|]. simpl. rewrite IH by exact Hin.
    destruct l; [contradiction|reflexivity].
Qed.

Lemma remove_first_NoDup : forall f l, NoDup l -> ~ In f (remove_first f l).
Proof.
  induction l as [|g l IH]; simpl; [auto|].
  intros Hnd. inversion Hnd as [|? ? Hg Hnd']; subst.
  destruct (g =? f) eqn:E.
  - apply Nat.eqb_eq in E. subst. exact Hg.
  - simpl. intros [Hgf|Hin].
    + subst. rewrite Nat.eqb_refl in E. discriminate.
    + exact (IH Hnd' Hin).
Qed.

Lemma RemoveFace_eq : forall asserts st f,
  RemoveFace asserts st f =
  let pit1 := map (RemoveAllReferencesToFace f) (m_pit st) in
  let entriesToRemove := filter (fibOnlyFace (m_fib st) f) pit1 in
  let pit2 := map (fun e => if existsb (fun x => name_eqb (pe_name x) (pe_name e)) entriesToRemove
                            then with_erased e else e) pit1 in
  if existsb (Nat.eqb f) (m_faces st)
  then Done (mkNode (remove_first f (m_faces st)) (filter (fun g => negb (g =? f)) (m_handlers st))
               (m_faceIds st) (m_faceCounter st) (m_up st) pit2 (m_pitMaxSize st) (m_fib st)
               (m_contentStore st) (m_now st) (m_nacksEnabled st) (m_cacheUnsolicitedData st)
               (m_sent st) (m_trace st))
  else if asserts then AssertFailed "Attempt to remove face that doesn't exist" else Undefined.
Proof.
  intros asserts st f. unfold RemoveFace. cbv zeta. rewrite markErased_fold. reflexivity.
Qed.

(** C9.  Removing a face that is not in the face list fails the assertion
    "Attempt to remove face that doesn't exist" (in a build with
    assertions); removing a registered face returns normally, with the face
    erased from the face list. *)
Theorem RemoveFace_registration : forall st f,
  (~ In f (m_faces st) ->
   RemoveFace true st f = AssertFailed "Attempt to remove face that doesn't exist") /\
  (In f (m_faces st) -> forall asserts, exists st',
     RemoveFace asserts st f = Done st' /\
     m_faces st' = remove_first f (m_faces st) /\
     length (m_faces st') = pred (length (m_faces st)) /\
     (NoDup (m_faces st) -> ~ In f (m_faces st'))).
Proof.
  intros st f. split.
  - intros Hn. rewrite RemoveFace_eq. cbv zeta.
    destruct (existsb (Nat.eqb f) (m_faces st)) eqn:E; [|reflexivity].
    apply existsb_eqb_In in E. contradiction.
  - intros Hin asserts. rewrite RemoveFace_eq. cbv zeta.
    assert (E : existsb (Nat.eqb f) (m_faces st) = true) by (apply existsb_eqb_In; exact Hin).
    rewrite E. eexists. split; [reflexivity|]. cbn [m_faces]. split; [reflexivity|].
    split; [apply remove_first_length; exact Hin|]. apply remove_first_NoDup.
Qed.

Lemma not_In_filter_in_face : forall f (l : list NdnPitEntryIncomingFace),
  ~ In f (map in_face (filter (fun i => negb (in_face i =? f)) l)).
Proof.
  intros f l Hin. apply in_map_iff in Hin as [i [Hi Hin]]. apply filter_In in Hin as [_ Hn].
  subst. rewrite Nat.eqb_refl in Hn. discriminate.
Qed.

Lemma not_In_filter_out_face : forall f (l : list NdnPitEntryOutgoingFace),
  ~ In f (map out_face (filter (fun o => negb (out_face o =? f)) l)).
Proof.
  intros f l Hin. apply in_map_iff in Hin as [o [Ho Hin]]. apply filter_In in Hin as [_ Hn].
  subst. rewrite Nat.eqb_refl in Hn. discriminate.
Qed.

(** C3.  After removeFace, the face's receive callback is revoked, no PIT
    entry names the face among its incoming or outgoing faces, every entry
    survives with the face purged, and every entry whose FIB entry holds
    the removed face as its only face is marked erased. *)
Theorem RemoveFace_purges_pit : forall asserts st f st',
  RemoveFace asserts st f = Done st' ->
  ~ In f (m_handlers st') /\
  (forall e', In e' (m_pit st') ->
     ~ In f (map in_face (pe_incoming e')) /\ ~ In f (map out_face (pe_outgoing e'))) /\
  (forall e, In e (m_pit st) ->
     In (RemoveAllReferencesToFace f e) (m_pit st') \/
     In (with_erased (RemoveAllReferencesToFace f e)) (m_pit st')) /\
  (forall e, In e (m_pit st) -> fibOnlyFace (m_fib st) f e = true ->
     In (with_erased (RemoveAllReferencesToFace f e)) (m_pit st')).
Proof.
  intros asserts st f st' H. rewrite RemoveFace_eq in H. cbv zeta in H.
  destruct (existsb (Nat.eqb f) (m_faces st)); [|destruct asserts; discriminate].
  injection H as <-. cbn [m_handlers m_pit]. split; [|split; [|split]].
  - intros Hin. apply filter_In in Hin as [_ Hn]. rewrite Nat.eqb_refl in Hn. discriminate.
  - intros e' Hin. apply in_map_iff in Hin as [e1 [He1 Hin]].
    apply in_map_iff in Hin as [e [He Hin]]. subst e1.
    assert (Hi : ~ In f (map in_face (pe_incoming (RemoveAllReferencesToFace f e))))
      by apply not_In_filter_in_face.
    assert (Ho : ~ In f (map out_face (pe_outgoing (RemoveAllReferencesToFace f e))))
      by apply not_In_filter_out_face.
    destruct (existsb _ _); subst e'; split; assumption.
  - intros e Hin.
    assert (Hin1 : In (RemoveAllReferencesToFace f e) (map (RemoveAllReferencesToFace f) (m_pit st)))
      by (apply in_map; exact Hin).
    match goal with
    | |- context [map ?G (map (RemoveAllReferencesToFace f) (m_pit st))] =>
        pose proof (in_map G _ _ Hin1) as Hg; cbv beta in Hg
    end.
    destruct (existsb _ _); [right|left]; exact Hg.
  - intros e Hin Hfo.
    assert (Hin1 : In (RemoveAllReferencesToFace f e) (map (RemoveAllReferencesToFace f) (m_pit st)))
      by (apply in_map; exact Hin).
    match goal with
    | |- context [map ?G (map (RemoveAllReferencesToFace f) (m_pit st))] =>
        pose proof (in_map G _ _ Hin1) as Hg; cbv beta in Hg
    end.
    assert (Hex : existsb (fun x => name_eqb (pe_name x) (pe_name (RemoveAllReferencesToFace f e)))
                    (filter (fibOnlyFace (m_fib st) f) (map (RemoveAllReferencesToFace f) (m_pit st)))
                  = true).
    { apply existsb_exists. exists (RemoveAllReferencesToFace f e). split.
      - apply filter_In. split; [exact Hin1|exact Hfo].
      - apply name_eqb_refl. }
    rewrite Hex in Hg. exact Hg.
Qed.

Lemma RemoveFace_purges_pit_witness :
  RemoveFace true ex_node 4
    = Done (match RemoveFace true ex_node 4 with Done s => s | _ => ex_node end) /\
  (let st' := match RemoveFace true ex_node 4 with Done s => s | _ => ex_node end in
   ~ In 4 (m_handlers st') /\
   (forall e', In e' (m_pit st') ->
      ~ In 4 (map in_face (pe_incoming e')) /\ ~ In 4 (map out_face (pe_outgoing e'))) /\
   (forall e, In e (m_pit ex_node) ->
      In (RemoveAllReferencesToFace 4 e) (m_pit st') \/
      In (with_erased (RemoveAllReferencesToFace 4 e)) (m_pit st')) /\
   (forall e, In e (m_pit ex_node) -> fibOnlyFace (m_fib ex_node) 4 e = true ->
      In (with_erased (RemoveAllReferencesToFace 4 e)) (m_pit st'))).
Proof.
  assert (H : RemoveFace true ex_node 4
              = Done (match RemoveFace true ex_node 4 with Done s => s | _ => ex_node end))
    by (vm_compute; reflexivity).
  split; [exact H|].
  exact (RemoveFace_purges_pit true ex_node 4 _ H).
Defined.

(** ** Interest processing *)

Lemma PitLookupOrCreate_Fire : forall st ev h,
  PitLookupOrCreate (Fire st ev) h =
  let (s, o) := PitLookupOrCreate st h in (Fire s ev, o).
Proof.
  intros st ev h. unfold PitLookupOrCreate, PitCreate. node_simpl.
  destruct (pit_lookup (m_pit st) (ih_name h)); [reflexivity|].
  destruct (_ && _); [reflexivity|].
  destruct (LongestPrefixMatch (m_fib st) (ih_name h)); reflexivity.
Qed.

Lemma find_app_none : forall {A} (pr : A -> bool) l1 l2,
  find pr l1 = None -> find pr (l1 ++ l2) = find pr l2.
Proof.
  intros A pr l1 l2. induction l1 as [|x l1 IH]; simpl; [reflexivity|].
  destruct (pr x); [discriminate|exact IH].
Qed.

Lemma PitLookupOrCreate_Some : forall st h st1 e,
  PitLookupOrCreate st h = (st1, Some e) ->
  exists p, st1 = set_pit st p /\ pit_lookup p (ih_name h) = Some e.
Proof.
  intros st h st1 e H. unfold PitLookupOrCreate, PitCreate in H.
  destruct (pit_lookup (m_pit st) (ih_name h)) eqn:El.
  - injection H as <- <-. exists (m_pit st). split; [symmetry; apply set_pit_id|exact El].
  - destruct (_ && _); [discriminate|].
    destruct (LongestPrefixMatch (m_fib st) (ih_name h)); [|discriminate].
    injection H as <- <-. eexists. split; [reflexivity|].
    unfold pit_lookup in *. rewrite find_app_none by exact El. simpl. rewrite name_eqb_refl. reflexivity.
Qed.

Lemma AddIncoming_In : forall e f now, In f (map in_face (pe_incoming (AddIncoming e f now))) \/
  findIncoming e f = true.
Proof.
  intros e f now. unfold AddIncoming. destruct (findIncoming e f) eqn:E; [right; reflexivity|].
  left. simpl. rewrite map_app. apply in_or_app. right. left. reflexivity.
Qed.

Lemma AddIncoming_name : forall e f now, pe_name (AddIncoming e f now) = pe_name e.
Proof. intros e f now. unfold AddIncoming. destruct (findIncoming e f); reflexivity. Qed.

Lemma AddIncoming_outgoing : forall e f now, pe_outgoing (AddIncoming e f now) = pe_outgoing e.
Proof. intros e f now. unfold AddIncoming. destruct (findIncoming e f); reflexivity. Qed.

Lemma AddIncoming_fib : forall e f now, pe_fibPrefix (AddIncoming e f now) = pe_fibPrefix e.
Proof. intros e f now. unfold AddIncoming. destruct (findIncoming e f); reflexivity. Qed.

Lemma findIncoming_In : forall e f, findIncoming e f = true -> In f (map in_face (pe_incoming e)).
Proof.
  intros e f H. unfold findIncoming in H. apply existsb_exists in H as [i [Hi Hf]].
  apply Nat.eqb_eq in Hf. subst. apply in_map. exact Hi.
Qed.

(** C4.  An Interest whose nonce is already in its PIT entry's seen-nonce
    set fires the [duplicated] drop, sends nothing but (when NACKs are
    enabled) one loop NACK back to the arriving face, leaves the FIB and the
    entry's outgoing set as they were, and leaves the arriving face in the
    entry's incoming set. *)
Theorem OnInterest_duplicate : forall PI st f h packet st1 e,
  PitLookupOrCreate st h = (st1, Some e) ->
  IsNonceSeen e (ih_nonce h) = true ->
  let st' := OnInterest PI st f h packet in
  m_trace st' = m_trace st ++ [InInterest h f; DropInterest h DUPLICATED f] ++
                (if m_nacksEnabled st then [OutNack (SetNack h NACK_LOOP) f] else []) /\
  m_sent st' = m_sent st ++
               (if m_nacksEnabled st then [(f, PInterest (SetNack h NACK_LOOP))] else []) /\
  m_fib st' = m_fib st /\
  exists e', pit_lookup (m_pit st') (ih_name h) = Some e' /\
             In f (map in_face (pe_incoming e')) /\ pe_outgoing e' = pe_outgoing e.
Proof.
  intros PI st f h packet st1 e Hc Hd st'. subst st'.
  destruct (PitLookupOrCreate_Some _ _ _ _ Hc) as [p [-> Hp]].
  destruct (pit_lookup_name _ _ _ Hp) as [Hn _].
  unfold OnInterest. rewrite PitLookupOrCreate_Fire, Hc. cbv zeta. rewrite Hd.
  set (e2 := if findIncoming e f then e else AddIncoming e f _).
  assert (He2n : pe_name e2 = ih_name h)
    by (subst e2; destruct (findIncoming e f); [exact Hn|rewrite AddIncoming_name; exact Hn]).
  assert (He2i : In f (map in_face (pe_incoming e2))).
  { subst e2. destruct (findIncoming e f) eqn:E; [apply findIncoming_In; exact E|].
    destruct (AddIncoming_In e f (m_now (Fire (set_pit st p) (InInterest h f)))) as [H|H];
      [exact H|congruence]. }
  assert (He2o : pe_outgoing e2 = pe_outgoing e)
    by (subst e2; destruct (findIncoming e f); [reflexivity|apply AddIncoming_outgoing]).
  assert (Hl2 : pit_lookup (m_pit (pit_set (Fire (set_pit st p) (InInterest h f)) e2)) (ih_name h)
                = Some e2).
  { rewrite <- He2n. apply pit_lookup_set_same with (e0 := e). rewrite He2n. exact Hp. }
  clearbody e2.
  node_simpl. node_simpl_in Hl2.
  destruct (m_nacksEnabled st); node_simpl; rewrite <- !app_assoc, ?app_nil_r;
    (split; [reflexivity|]); (split; [reflexivity|]); (split; [reflexivity|]);
    exists e2; (split; [exact Hl2|split; assumption]).
Qed.

Lemma OnInterest_duplicate_witness :
  PitLookupOrCreate ex_node (ex_interest 55) = (ex_node, Some ex_entry) /\
  IsNonceSeen ex_entry (ih_nonce (ex_interest 55)) = true /\
  (let st' := OnInterest FloodingStrategy ex_node 5 (ex_interest 55) (PInterest (ex_interest 55)) in
   m_trace st' = m_trace ex_node ++
                 [InInterest (ex_interest 55) 5; DropInterest (ex_interest 55) DUPLICATED 5] ++
                 (if m_nacksEnabled ex_node
                  then [OutNack (SetNack (ex_interest 55) NACK_LOOP) 5] else []) /\
   m_sent st' = m_sent ex_node ++
                (if m_nacksEnabled ex_node
                 then [(5, PInterest (SetNack (ex_interest 55) NACK_LOOP))] else []) /\
   m_fib st' = m_fib ex_node /\
   exists e', pit_lookup (m_pit st') (ih_name (ex_interest 55)) = Some e' /\
              In 5 (map in_face (pe_incoming e')) /\ pe_outgoing e' = pe_outgoing ex_entry).
Proof.
  assert (H1 : PitLookupOrCreate ex_node (ex_interest 55) = (ex_node, Some ex_entry))
    by reflexivity.
  assert (H2 : IsNonceSeen ex_entry (ih_nonce (ex_interest 55)) = true) by reflexivity.
  split; [exact H1|]. split; [exact H2|].
  exact (OnInterest_duplicate FloodingStrategy ex_node 5 (ex_interest 55)
           (PInterest (ex_interest 55)) ex_node ex_entry H1 H2).
Defined.

Lemma cs_lookup_name : forall st n ch payload,
  cs_lookup st n = Some (ch, payload) -> ch_name ch = n.
Proof.
  unfold cs_lookup. intros st n ch payload H. apply find_some in H as [_ H].
  apply name_eqb_eq. exact H.
Qed.

(** OnInterest on a non-duplicate Interest, up to the content-store lookup. *)
Lemma OnInterest_nondup_eq : forall PI st f h packet st1 e,
  PitLookupOrCreate st h = (st1, Some e) ->
  IsNonceSeen e (ih_nonce h) = false ->
  OnInterest PI st f h packet =
  let e1 := AddSeenNonce e (ih_nonce h) in
  let e2 := if findIncoming e f then e1 else AddIncoming e1 f (m_now st1) in
  let s := pit_set (Fire st1 (InInterest h f)) e2 in
  match cs_lookup s (ih_name h) with
  | Some (ch, payload) => OnDataDelayed s ch payload (PData ch payload)
  | None =>
      let s' := pit_set s (UpdateLifetime e2 (m_now s) (ih_lifetime h)) in
      match findOutgoing e f with
      | Some _ =>
          PropagateStage PI (UpdateStatus s' (pe_fibPrefix e2) f NDN_FIB_YELLOW)
                         (pe_name e2) f h packet (findIncoming e f)
      | None =>
          if negb ((length (pe_incoming e) =? 0) && (length (pe_outgoing e) =? 0))
             && negb (findIncoming e f)
          then Fire s' (DropInterest h SUPPRESSED f)
          else PropagateStage PI s' (pe_name e2) f h packet (findIncoming e f)
      end
  end.
Proof.
  intros PI st f h packet st1 e Hc Hd.
  unfold OnInterest. rewrite PitLookupOrCreate_Fire, Hc. cbv zeta. rewrite Hd. reflexivity.
Qed.

Lemma findIncoming_AddSeenNonce : forall e n f, findIncoming (AddSeenNonce e n) f = findIncoming e f.
Proof. reflexivity. Qed.

(** C7.  On a content-store hit for a non-duplicate Interest, the requester
    is satisfied by the fan-out over the entry's incoming faces (the
    arriving face included), the FIB is left untouched, the entry ends
    erased with no outgoing entries, and the forwarding strategy is never
    consulted: the outcome does not depend on it. *)
Theorem OnInterest_cache_hit : forall PI st f h packet st1 e ch payload,
  PitLookupOrCreate st h = (st1, Some e) ->
  IsNonceSeen e (ih_nonce h) = false ->
  cs_lookup st (ih_name h) = Some (ch, payload) ->
  let st' := OnInterest PI st f h packet in
  m_fib st' = m_fib st /\
  m_sent st' = m_sent st ++ map (fun g => (g, PData ch payload))
                                (map in_face (pe_incoming e) ++ (if findIncoming e f then [] else [f])) /\
  (exists e', pit_lookup (m_pit st') (ih_name h) = Some e' /\
              pe_erased e' = true /\ pe_outgoing e' = [] /\ pe_incoming e' = []) /\
  (forall PI', OnInterest PI' st f h packet = st').
Proof.
  intros PI st f h packet st1 e ch payload Hc Hd Hcs st'. subst st'.
  destruct (PitLookupOrCreate_Some _ _ _ _ Hc) as [p [-> Hp]].
  destruct (pit_lookup_name _ _ _ Hp) as [Hn _].
  assert (Hch := cs_lookup_name _ _ _ _ Hcs).
  assert (Hall : forall Q, OnInterest Q st f h packet =
    let e1 := AddSeenNonce e (ih_nonce h) in
    let e2 := if findIncoming e f then e1 else AddIncoming e1 f (m_now (set_pit st p)) in
    let s := pit_set (Fire (set_pit st p) (InInterest h f)) e2 in
    OnDataDelayed s ch payload (PData ch payload)).
  { intros Q. rewrite (OnInterest_nondup_eq Q st f h packet _ e Hc Hd). cbv zeta.
    unfold cs_lookup in *. node_simpl. rewrite Hcs. reflexivity. }
  rewrite (Hall PI). cbv zeta.
  set (e2 := if findIncoming e f then AddSeenNonce e (ih_nonce h)
             else AddIncoming (AddSeenNonce e (ih_nonce h)) f (m_now (set_pit st p))).
  assert (He2n : pe_name e2 = ch_name ch).
  { rewrite Hch. subst e2. destruct (findIncoming e f); [exact Hn|].
    rewrite AddIncoming_name. exact Hn. }
  assert (He2i : pe_incoming e2 = pe_incoming e ++
                   (if findIncoming e f then [] else [mkIncoming f (m_now st)])).
  { subst e2. destruct (findIncoming e f) eqn:E; [rewrite app_nil_r; reflexivity|].
    unfold AddIncoming. rewrite findIncoming_AddSeenNonce, E. reflexivity. }
  assert (Hne : pe_incoming e2 <> []).
  { rewrite He2i. destruct (findIncoming e f) eqn:E.
    - apply findIncoming_In in E. destruct (pe_incoming e); [contradiction|discriminate].
    - destruct (pe_incoming e); discriminate. }
  assert (Hl : pit_lookup (m_pit (pit_set (Fire (set_pit st p) (InInterest h f)) e2)) (ch_name ch)
               = Some e2).
  { rewrite <- He2n. apply pit_lookup_set_same with (e0 := e). rewrite He2n, Hch. exact Hp. }
  destruct (OnDataDelayed_spec _ ch payload (PData ch payload) e2 Hl Hne) as [Hs [Hp2 [Hf _]]].
  split; [|split; [|split]].
  - rewrite Hf. reflexivity.
  - rewrite Hs, He2i, map_app, map_app. node_simpl. f_equal. f_equal.
    + rewrite map_map. reflexivity.
    + destruct (findIncoming e f); reflexivity.
  - rewrite <- Hch. eexists. split; [exact Hp2|]. repeat split.
  - intros Q. rewrite (Hall Q). reflexivity.
Qed.

Lemma OnInterest_cache_hit_witness :
  PitLookupOrCreate ex_node_cs (ex_interest 56) = (ex_node_cs, Some ex_entry) /\
  IsNonceSeen ex_entry (ih_nonce (ex_interest 56)) = false /\
  cs_lookup ex_node_cs (ih_name (ex_interest 56)) = Some (ex_data, [9]) /\
  (let st' := OnInterest FloodingStrategy ex_node_cs 5 (ex_interest 56) (PInterest (ex_interest 56)) in
   m_fib st' = m_fib ex_node_cs /\
   m_sent st' = m_sent ex_node_cs ++ map (fun g => (g, PData ex_data [9]))
                  (map in_face (pe_incoming ex_entry) ++ (if findIncoming ex_entry 5 then [] else [5])) /\
   (exists e', pit_lookup (m_pit st') (ih_name (ex_interest 56)) = Some e' /\
               pe_erased e' = true /\ pe_outgoing e' = [] /\ pe_incoming e' = []) /\
   (forall PI', OnInterest PI' ex_node_cs 5 (ex_interest 56) (PInterest (ex_interest 56)) = st')).
Proof.
  assert (H1 : PitLookupOrCreate ex_node_cs (ex_interest 56) = (ex_node_cs, Some ex_entry))
    by reflexivity.
  assert (H2 : IsNonceSeen ex_entry (ih_nonce (ex_interest 56)) = false) by reflexivity.
  assert (H3 : cs_lookup ex_node_cs (ih_name (ex_interest 56)) = Some (ex_data, [9]))
    by reflexivity.
  split; [exact H1|]. split; [exact H2|]. split; [exact H3|].
  exact (OnInterest_cache_hit FloodingStrategy ex_node_cs 5 (ex_interest 56)
           (PInterest (ex_interest 56)) ex_node_cs ex_entry ex_data [9] H1 H2 H3).
Defined.

Lemma fib_status_UpdateStatus : forall st prefix f s,
  fib_status (m_fib (UpdateStatus st prefix f s)) prefix f
  = option_map (fun _ => s) (fib_status (m_fib st) prefix f).
Proof.
  intros st prefix f s. unfold UpdateStatus, fib_modify, fib_status, fib_find. node_simpl.
  induction (m_fib st) as [|fe fb IH]; simpl; [reflexivity|].
  destruct (name_eqb (fib_prefix fe) prefix) eqn:E; simpl; rewrite ?E; [|exact IH].
  clear IH. induction (fib_faces fe) as [|m ms IHm]; simpl; [reflexivity|].
  destruct (m_face m =? f) eqn:Em; simpl; rewrite ?Em; [reflexivity|exact IHm].
Qed.

(** C5 (amended).  For a non-duplicate Interest that misses in the
    content store: when the arriving face has an outgoing-entry, the
    Interest goes to the propagation step, on a node whose FIB records the
    arriving face as degraded (yellow); otherwise, when the Interest is
    neither new nor a retransmission, it is suppressed: the [suppressed] drop
    fires and nothing is sent. *)
Theorem OnInterest_suppression : forall PI st f h packet st1 e,
  PitLookupOrCreate st h = (st1, Some e) ->
  IsNonceSeen e (ih_nonce h) = false ->
  cs_lookup st (ih_name h) = None ->
  (forall o, findOutgoing e f = Some o ->
     exists st2, OnInterest PI st f h packet
                 = PropagateStage PI st2 (ih_name h) f h packet (findIncoming e f) /\
                 fib_status (m_fib st2) (pe_fibPrefix e) f
                 = option_map (fun _ => NDN_FIB_YELLOW) (fib_status (m_fib st) (pe_fibPrefix e) f)) /\
  (findOutgoing e f = None ->
   (pe_incoming e <> [] \/ pe_outgoing e <> []) ->
   findIncoming e f = false ->
   let st' := OnInterest PI st f h packet in
   m_sent st' = m_sent st /\ m_fib st' = m_fib st /\
   m_trace st' = m_trace st ++ [InInterest h f; DropInterest h SUPPRESSED f]).
Proof.
  intros PI st f h packet st1 e Hc Hd Hcs.
  destruct (PitLookupOrCreate_Some _ _ _ _ Hc) as [p [-> Hp]].
  destruct (pit_lookup_name _ _ _ Hp) as [Hn _].
  rewrite (OnInterest_nondup_eq PI st f h packet _ e Hc Hd). cbv zeta.
  unfold cs_lookup in *. node_simpl. rewrite Hcs. split.
  - intros o Ho. rewrite Ho. eexists. split.
    + f_equal. destruct (findIncoming e f); [exact Hn|]. rewrite AddIncoming_name. exact Hn.
    + rewrite <- fib_status_UpdateStatus.
      destruct (findIncoming e f); [reflexivity|]. rewrite AddIncoming_fib. reflexivity.
  - intros Ho Hne Hi. rewrite Ho, Hi.
    assert (Hnew : ((length (pe_incoming e) =? 0) && (length (pe_outgoing e) =? 0)) = false).
    { destruct Hne as [Hne|Hne]; destruct (pe_incoming e), (pe_outgoing e);
        try reflexivity; contradiction. }
    rewrite Hnew. cbn [negb andb]. node_simpl. repeat split. rewrite <- !app_assoc. reflexivity.
Qed.

Lemma OnInterest_suppression_witness :
  PitLookupOrCreate ex_node (ex_interest 56) = (ex_node, Some ex_entry) /\
  IsNonceSeen ex_entry (ih_nonce (ex_interest 56)) = false /\
  cs_lookup ex_node (ih_name (ex_interest 56)) = None /\
  findOutgoing ex_entry 4 = Some (mkOutgoing 4 1 false) /\
  exists st2, OnInterest FloodingStrategy ex_node 4 (ex_interest 56) (PInterest (ex_interest 56))
              = PropagateStage FloodingStrategy st2 (ih_name (ex_interest 56)) 4 (ex_interest 56)
                               (PInterest (ex_interest 56)) (findIncoming ex_entry 4) /\
              fib_status (m_fib st2) (pe_fibPrefix ex_entry) 4
              = option_map (fun _ => NDN_FIB_YELLOW)
                           (fib_status (m_fib ex_node) (pe_fibPrefix ex_entry) 4).
Proof.
  assert (H1 : PitLookupOrCreate ex_node (ex_interest 56) = (ex_node, Some ex_entry))
    by reflexivity.
  assert (H2 : IsNonceSeen ex_entry (ih_nonce (ex_interest 56)) = false) by reflexivity.
  assert (H3 : cs_lookup ex_node (ih_name (ex_interest 56)) = None) by reflexivity.
  assert (H4 : findOutgoing ex_entry 4 = Some (mkOutgoing 4 1 false)) by reflexivity.
  split; [exact H1|]. split; [exact H2|]. split; [exact H3|]. split; [exact H4|].
  exact (proj1 (OnInterest_suppression FloodingStrategy ex_node 4 (ex_interest 56)
                  (PInterest (ex_interest 56)) ex_node ex_entry H1 H2 H3) _ H4).
Defined.

(** C5 as stated fails: a non-duplicate Interest arriving on face 4, which
    has an outgoing-entry, hits in the content store; the FIB status of face
    4 stays green and the Interest is answered from the cache. *)
Lemma OnInterest_suppression_counterexample :
  IsNonceSeen ex_entry (ih_nonce (ex_interest 56)) = false /\
  findOutgoing ex_entry 4 = Some (mkOutgoing 4 1 false) /\
  fib_status (m_fib (OnInterest FloodingStrategy ex_node_cs 4 (ex_interest 56)
                                (PInterest (ex_interest 56)))) [7] 4 = Some NDN_FIB_GREEN /\
  m_sent (OnInterest FloodingStrategy ex_node_cs 4 (ex_interest 56) (PInterest (ex_interest 56)))
  = [(1, PData ex_data [9]); (2, PData ex_data [9]); (3, PData ex_data [9]); (4, PData ex_data [9])].
Proof. vm_compute. repeat split. Qed.

(** ** Give-up *)

(** C8.  With NACKs enabled, give-up sends one give-up NACK to each
    incoming face of the entry, then leaves it erased with empty incoming
    and outgoing sets; with NACKs disabled it does nothing at all. *)
Theorem GiveUpInterest_spec : forall st n h e,
  pit_lookup (m_pit st) n = Some e ->
  (m_nacksEnabled st = true ->
   let st' := GiveUpInterest st n h in
   m_sent st' = m_sent st ++ map (fun i => (in_face i, PInterest (SetNack h NACK_GIVEUP_PIT)))
                                 (pe_incoming e) /\
   m_trace st' = m_trace st ++ map (fun i => OutNack (SetNack h NACK_GIVEUP_PIT) (in_face i))
                                   (pe_incoming e) /\
   pit_lookup (m_pit st') n = Some (with_erased (ClearOutgoing (ClearIncoming e)))) /\
  (m_nacksEnabled st = false -> GiveUpInterest st n h = st).
Proof.
  intros st n h e Hl. destruct (pit_lookup_name _ _ _ Hl) as [Hn _]. split.
  - intros En st'. subst st'. unfold GiveUpInterest. rewrite En, Hl.
    rewrite fanout_eq with (pk := fun _ => PInterest (SetNack h NACK_GIVEUP_PIT))
                           (ev := fun i => OutNack (SetNack h NACK_GIVEUP_PIT) (in_face i)).
    split; [reflexivity|]. split; [reflexivity|].
    rewrite pit_lookup_markErased.
    set (e1 := ClearOutgoing (ClearIncoming e)).
    assert (Hn1 : pe_name e1 = n) by exact Hn.
    rewrite <- Hn1, pit_lookup_set. node_simpl. rewrite Hn1, Hl. reflexivity.
  - intros En. unfold GiveUpInterest. rewrite En. reflexivity.
Qed.

Lemma GiveUpInterest_spec_witness :
  pit_lookup (m_pit ex_node) [7] = Some ex_entry /\
  m_sent (GiveUpInterest ex_node [7] (ex_interest 56))
  = [(1, PInterest (SetNack (ex_interest 56) NACK_GIVEUP_PIT));
     (2, PInterest (SetNack (ex_interest 56) NACK_GIVEUP_PIT));
     (3, PInterest (SetNack (ex_interest 56) NACK_GIVEUP_PIT))].
Proof.
  assert (H : pit_lookup (m_pit ex_node) [7] = Some ex_entry) by reflexivity.
  split; [exact H|].
  destruct (GiveUpInterest_spec ex_node [7] (ex_interest 56) ex_entry H) as [Hon _].
  destruct (Hon eq_refl) as [Hs _]. rewrite Hs. reflexivity.
Defined.

(** ** NACK reception *)

Lemma findOutgoing_SetWaitingInVain : forall e f,
  findOutgoing (SetWaitingInVain e f) f
  = option_map (fun o => mkOutgoing (out_face o) (out_sendTime o) true) (findOutgoing e f).
Proof.
  intros e f. unfold findOutgoing, SetWaitingInVain. cbn [pe_outgoing with_outgoing].
  induction (pe_outgoing e) as [|o os IH]; simpl; [reflexivity|].
  destruct (out_face o =? f) eqn:E; simpl; rewrite ?E; [reflexivity|exact IH].
Qed.

(** C6.  A NACK matching a PIT entry and an outgoing-entry for the arriving
    face marks that outgoing-entry in vain and records the face as degraded
    (yellow) in the FIB; then: with the entry's incoming set empty, the
    [after-satisfied] drop fires; with some outgoing-entry not in vain, the
    [suppressed] drop fires; only when all are in vain is the Interest
    re-propagated, tagged normal.  The two dropping outcomes send nothing. *)
Theorem OnNack_spec : forall PI st f h e o,
  pit_lookup (m_pit st) (ih_name h) = Some e ->
  findOutgoing e f = Some o ->
  let e1 := SetWaitingInVain e f in
  let e2 := if nack_eqb (ih_nack h) NACK_GIVEUP_PIT then RemoveIncoming e1 f else e1 in
  let s := UpdateStatus (pit_set (Fire st (InNack h f)) e2) (pe_fibPrefix e2) f NDN_FIB_YELLOW in
  pit_lookup (m_pit s) (ih_name h) = Some e2 /\
  findOutgoing e2 f = Some (mkOutgoing (out_face o) (out_sendTime o) true) /\
  fib_status (m_fib s) (pe_fibPrefix e) f
    = option_map (fun _ => NDN_FIB_YELLOW) (fib_status (m_fib st) (pe_fibPrefix e) f) /\
  OnNack PI st f h =
    (if length (pe_incoming e2) =? 0 then Fire s (DropNack h AFTER_SATISFIED f)
     else if AreAllOutgoingInVain e2 then NackRepropagate PI s (ih_name h) f h
     else Fire s (DropNack h SUPPRESSED f)) /\
  (pe_incoming e2 = [] \/ AreAllOutgoingInVain e2 = false ->
   m_sent (OnNack PI st f h) = m_sent st).
Proof.
  intros PI st f h e o Hl Ho e1 e2 s.
  destruct (pit_lookup_name _ _ _ Hl) as [Hn _].
  assert (He2n : pe_name e2 = ih_name h)
    by (subst e2 e1; destruct (nack_eqb _ _); exact Hn).
  assert (He2f : pe_fibPrefix e2 = pe_fibPrefix e)
    by (subst e2 e1; destruct (nack_eqb _ _); reflexivity).
  assert (Heq : OnNack PI st f h =
    (if length (pe_incoming e2) =? 0 then Fire s (DropNack h AFTER_SATISFIED f)
     else if AreAllOutgoingInVain e2 then NackRepropagate PI s (ih_name h) f h
     else Fire s (DropNack h SUPPRESSED f))).
  { unfold OnNack. cbv zeta. node_simpl. rewrite Hl, Ho. fold e1 e2 s.
    rewrite He2n. destruct (length (pe_incoming e2) =? 0); [reflexivity|].
    destruct (AreAllOutgoingInVain e2); reflexivity. }
  split; [|split; [|split; [|split]]].
  - subst s. unfold UpdateStatus, fib_modify. node_simpl. fold (pit_set (Fire st (InNack h f)) e2).
    rewrite <- He2n. apply pit_lookup_set_same with (e0 := e). rewrite He2n. exact Hl.
  - subst e2 e1. destruct (nack_eqb _ _).
    + unfold RemoveIncoming. unfold findOutgoing at 1. cbn [pe_outgoing with_incoming].
      fold (findOutgoing (SetWaitingInVain e f) f).
      rewrite findOutgoing_SetWaitingInVain, Ho. reflexivity.
    + rewrite findOutgoing_SetWaitingInVain, Ho. reflexivity.
  - subst s. rewrite He2f, fib_status_UpdateStatus. reflexivity.
  - exact Heq.
  - intros Hc. rewrite Heq. destruct Hc as [Hc|Hc].
    + rewrite Hc. reflexivity.
    + destruct (length (pe_incoming e2) =? 0); [reflexivity|]. rewrite Hc. reflexivity.
Qed.

Lemma OnNack_spec_witness :
  pit_lookup (m_pit ex_node) (ih_name ex_nack) = Some ex_entry /\
  findOutgoing ex_entry 4 = Some (mkOutgoing 4 1 false) /\
  m_sent (OnNack FloodingStrategy ex_node 4 ex_nack)
  = map (fun g => (g, PInterest (SetNack ex_nack NACK_GIVEUP_PIT))) [1; 2; 3].
Proof.
  assert (H1 : pit_lookup (m_pit ex_node) (ih_name ex_nack) = Some ex_entry) by reflexivity.
  assert (H2 : findOutgoing ex_entry 4 = Some (mkOutgoing 4 1 false)) by reflexivity.
  split; [exact H1|]. split; [exact H2|].
  destruct (OnNack_spec FloodingStrategy ex_node 4 ex_nack ex_entry _ H1 H2)
    as [_ [_ [_ [Heq _]]]].
  rewrite Heq. vm_compute. reflexivity.
Defined.

(** ** The face registry: ids and lookups *)

Lemma find_none_intro : forall {A} (p : A -> bool) l,
  (forall x, In x l -> p x = false) -> find p l = None.
Proof.
  intros A p l. induction l as [|x l IH]; simpl; intros H; [reflexivity|].
  rewrite (H x (or_introl eq_refl)). apply IH. intros y Hy. apply H. right. exact Hy.
Qed.













Lemma In_remove_first : forall f g l, In g (remove_first f l) -> In g l.
Proof.
  induction l as [|x l IH]; simpl; [auto|].
  destruct (x =? f); simpl; intros H; [right; exact H|]. destruct H as [H|H]; auto.
Qed.




Lemma GetFace_none_intro : forall st i,
  (forall g, In g (m_faces st) -> GetId st g <> Some i) -> GetFace st i = None.
Proof.
  intros st i H. unfold GetFace. apply find_none_intro. intros g Hg.
  specialize (H g Hg). destruct (GetId st g) as [j|]; [|reflexivity].
  apply Nat.eqb_neq. intros ->. apply H. reflexivity.
Qed.

(** X1.  GetFace returns a registered face carrying the requested id, and
    returns nothing exactly when no registered face carries it. *)
Theorem GetFace_spec : forall st i,
  (forall g, GetFace st i = Some g -> In g (m_faces st) /\ GetId st g = Some i) /\
  (GetFace st i = None <-> forall g, In g (m_faces st) -> GetId st g <> Some i).
Proof.
  intros st i. split; [|split].
  - intros g H. unfold GetFace in H. apply find_some in H as [Hin Hg]. split; [exact Hin|].
    destruct (GetId st g) as [j|]; [|discriminate]. apply Nat.eqb_eq in Hg. subst. reflexivity.
  - intros H g Hg Hid. unfold GetFace in H. apply (find_none _ _ H) in Hg.
    rewrite Hid, Nat.eqb_refl in Hg. discriminate.
  - apply GetFace_none_intro.
Qed.





(** X6.  GetFaceByNetDevice returns a registered net-device face bound to
    the device, skipping faces of other kinds, and returns nothing exactly
    when no registered face is bound to it. *)
Theorem GetFaceByNetDevice_spec : forall devOf st nd,
  (forall g, GetFaceByNetDevice devOf st nd = Some g -> In g (m_faces st) /\ devOf g = Some nd) /\
  (GetFaceByNetDevice devOf st nd = None <-> forall g, In g (m_faces st) -> devOf g <> Some nd).
Proof.
  intros devOf st nd. unfold GetFaceByNetDevice. split; [|split].
  - intros g H. apply find_some in H as [Hin Hg]. split; [exact Hin|].
    destruct (devOf g) as [d|]; [|discriminate]. apply Nat.eqb_eq in Hg. subst. reflexivity.
  - intros H g Hg Hd. apply (find_none _ _ H) in Hg. rewrite Hd, Nat.eqb_refl in Hg. discriminate.
  - intros H. apply find_none_intro. intros g Hg. specialize (H g Hg).
    destruct (devOf g) as [d|]; [|reflexivity]. apply Nat.eqb_neq. intros ->. apply H. reflexivity.
Qed.

(** ** Aggregation *)

Lemma NotifyNewAggregate_eq : forall asserts agg l,
  NotifyNewAggregate asserts agg l =
  if asserts && negb (l_node l) && agg_node agg && negb (l_forwardingStrategy l)
  then AssertFailed "Forwarding strategy should be aggregated before NdnL3Protocol"
  else Done (mkLinks (l_node l || agg_node agg) (l_forwardingStrategy l || agg_strategy agg)).
Proof.
  intros asserts [an as_] [ln ls]. unfold NotifyNewAggregate, NS_ASSERT_MSG.
  cbn [l_node l_forwardingStrategy agg_node agg_strategy].
  destruct asserts, ln, ls, an, as_; reflexivity.
Qed.

(** X7.  NotifyNewAggregate only ever sets the node and strategy pointers,
    each from the aggregate when it is still unset.  Its assertion fails
    exactly when the node is found while the strategy pointer is still
    unset, whether or not the strategy is in the aggregate at that time. *)
Theorem NotifyNewAggregate_spec : forall asserts agg l,
  NotifyNewAggregate asserts agg l =
  if asserts && negb (l_node l) && agg_node agg && negb (l_forwardingStrategy l)
  then AssertFailed "Forwarding strategy should be aggregated before NdnL3Protocol"
  else Done (mkLinks (l_node l || agg_node agg) (l_forwardingStrategy l || agg_strategy agg)).
Proof. exact NotifyNewAggregate_eq. Qed.

Lemma AggregateAll_gen : forall objs n s,
  (n = true -> s = true) ->
  AggregateAll true (mkAggregate n s) (mkLinks n s) objs =
  if negb s && node_before_strategy objs
  then AssertFailed "Forwarding strategy should be aggregated before NdnL3Protocol"
  else Done (mkLinks (n || existsb (AggObject_eqb ObjNode) objs)
                     (s || existsb (AggObject_eqb ObjStrategy) objs)).
Proof.
  induction objs as [|o objs IH]; intros n s Hinv.
  - cbn. rewrite !orb_false_r. destruct s; reflexivity.
  - cbn [AggregateAll]. rewrite NotifyNewAggregate_eq.
    destruct o, n, s; cbn [agg_add agg_node agg_strategy l_node l_forwardingStrategy
                           node_before_strategy existsb AggObject_eqb andb negb orb];
      try (specialize (Hinv eq_refl); discriminate);
      try reflexivity;
      rewrite IH by (intros; reflexivity || discriminate); reflexivity.
Qed.

(** X8.  Starting from an empty aggregate, adding objects one at a time (each
    addition notifying the protocol) fails the assertion exactly when the
    node joins before any forwarding strategy; otherwise both pointers end
    set exactly when the corresponding object was added. *)
Theorem AggregateAll_order : forall objs,
  AggregateAll true (mkAggregate false false) (mkLinks false false) objs =
  if node_before_strategy objs
  then AssertFailed "Forwarding strategy should be aggregated before NdnL3Protocol"
  else Done (mkLinks (existsb (AggObject_eqb ObjNode) objs)
                     (existsb (AggObject_eqb ObjStrategy) objs)).
Proof.
  intros objs. exact (AggregateAll_gen objs false false (fun H => H)).
Qed.

(** ** Data and give-up, composed *)

Lemma OnData_quiet : forall st g h payload packet,
  match pit_lookup (m_pit st) (ch_name h) with
  | Some e => match findOutgoing e g with
              | Some _ => pe_incoming (RemoveIncoming e g) = []
              | None => True
              end
  | None => True
  end ->
  m_sent (OnData st g h payload packet) = m_sent st.
Proof.
  intros st g h payload packet H. unfold OnData. cbv zeta. cbn [m_pit Fire].
  destruct (pit_lookup (m_pit st) (ch_name h)) as [e|] eqn:El.
  - destruct (findOutgoing e g) as [out|] eqn:Eo.
    + rewrite H. cbn [length Nat.eqb]. reflexivity.
    + destruct (m_cacheUnsolicitedData _); reflexivity.
  - destruct (m_cacheUnsolicitedData _); reflexivity.
Qed.

Lemma OnData_after : forall st g h payload packet,
  let st' := OnData st g h payload packet in
  match pit_lookup (m_pit st) (ch_name h) with
  | None => pit_lookup (m_pit st') (ch_name h) = None
  | Some e =>
      match findOutgoing e g with
      | None => pit_lookup (m_pit st') (ch_name h) = Some e
      | Some _ =>
          (pe_incoming (RemoveIncoming e g) = [] /\
           pit_lookup (m_pit st') (ch_name h) = Some (with_erased (RemoveIncoming e g))) \/
          pit_lookup (m_pit st') (ch_name h)
          = Some (with_erased (ClearOutgoing (ClearIncoming (RemoveIncoming e g))))
      end
  end.
Proof.
  intros st g h payload packet st'. subst st'.
  destruct (pit_lookup (m_pit st) (ch_name h)) as [e|] eqn:El.
  - destruct (findOutgoing e g) as [out|] eqn:Eo.
    + destruct (pe_incoming (RemoveIncoming e g)) as [|i l] eqn:Ei.
      * left. split; [reflexivity|].
        destruct (pit_lookup_name _ _ _ El) as [Hn _].
        unfold OnData. cbv zeta. cbn [m_pit Fire]. rewrite El, Eo, Ei. cbn [length Nat.eqb].
        set (e1 := RemoveIncoming e g).
        assert (Hn1 : pe_name e1 = ch_name h) by exact Hn.
        rewrite Hn1, pit_lookup_markErased, <- Hn1, pit_lookup_set. node_simpl.
        rewrite Hn1, El. reflexivity.
      * right. refine (proj2 (OnData_solicited_spec st g h payload packet e out El Eo _)).
        change (pe_incoming (RemoveIncoming e g) <> []). rewrite Ei. discriminate.
    + destruct (OnData_no_outgoing_spec st g h payload packet e El Eo) as [_ [Hp _]].
      rewrite Hp. exact El.
  - unfold OnData. cbv zeta. cbn [m_pit Fire]. rewrite El.
    destruct (m_cacheUnsolicitedData _); node_simpl; exact El.
Qed.

(** X9.  A Data packet is forwarded at most once: the same Data arriving
    again on the same face right after the first copy sends nothing, whatever
    the first copy did to the PIT entry. *)
Theorem OnData_twice_sends_once : forall st g h payload packet,
  let st1 := OnData st g h payload packet in
  m_sent (OnData st1 g h payload packet) = m_sent st1.
Proof.
  intros st g h payload packet st1. apply OnData_quiet.
  pose proof (OnData_after st g h payload packet) as Ha. fold st1 in Ha.
  destruct (pit_lookup (m_pit st) (ch_name h)) as [e|] eqn:El.
  - destruct (findOutgoing e g) as [out|] eqn:Eo.
    + destruct Ha as [[Hi Hl]|Hl]; rewrite Hl.
      * destruct (findOutgoing _ g); [|exact I].
        change (filter (fun i => negb (in_face i =? g)) (pe_incoming (RemoveIncoming e g)) = []).
        rewrite Hi. reflexivity.
      * reflexivity.
    + rewrite Ha, Eo. exact I.
  - rewrite Ha. exact I.
Qed.

Lemma GiveUpInterest_nacks : forall st n h e,
  pit_lookup (m_pit st) n = Some e -> m_nacksEnabled st = true ->
  let st' := GiveUpInterest st n h in
  m_sent st' = m_sent st ++ map (fun i => (in_face i, PInterest (SetNack h NACK_GIVEUP_PIT)))
                                (pe_incoming e) /\
  pit_lookup (m_pit st') n = Some (with_erased (ClearOutgoing (ClearIncoming e))).
Proof.
  intros st n h e Hl En st'. subst st'. destruct (pit_lookup_name _ _ _ Hl) as [Hn _].
  unfold GiveUpInterest. rewrite En, Hl.
  rewrite fanout_eq with (pk := fun _ => PInterest (SetNack h NACK_GIVEUP_PIT))
                         (ev := fun i => OutNack (SetNack h NACK_GIVEUP_PIT) (in_face i)).
  split; [reflexivity|]. rewrite pit_lookup_markErased.
  set (e1 := ClearOutgoing (ClearIncoming e)).
  assert (Hn1 : pe_name e1 = n) by exact Hn.
  rewrite <- Hn1, pit_lookup_set. node_simpl. rewrite Hn1, Hl. reflexivity.
Qed.

(** X10.  Giving up twice on the same PIT entry sends the give-up NACKs only
    once: the second GiveUpInterest sends nothing. *)
Theorem GiveUpInterest_twice : forall st n h h',
  let st1 := GiveUpInterest st n h in
  m_sent (GiveUpInterest st1 n h') = m_sent st1.
Proof.
  intros st n h h' st1.
  destruct (pit_lookup (m_pit st) n) as [e|] eqn:El.
  - destruct (m_nacksEnabled st) eqn:En.
    + destruct (GiveUpInterest_nacks st n h e El En) as [_ Hl].
      fold st1 in Hl. unfold GiveUpInterest at 1.
      destruct (m_nacksEnabled st1); [|reflexivity]. rewrite Hl.
      cbn [pe_incoming with_erased ClearOutgoing ClearIncoming with_incoming with_outgoing
           fold_left].
      node_simpl. reflexivity.
    + assert (Hid : st1 = st) by (subst st1; unfold GiveUpInterest; rewrite En; reflexivity).
      rewrite Hid. unfold GiveUpInterest. rewrite En. reflexivity.
  - assert (Hid : st1 = st) by (subst st1; unfold GiveUpInterest; rewrite El;
                                destruct (m_nacksEnabled st); reflexivity).
    rewrite Hid. unfold GiveUpInterest. rewrite El. destruct (m_nacksEnabled st); reflexivity.
Qed.

(** ** Data, NACK and Interest edge cases *)

Lemma fib_metric_modify : forall st prefix f upd,
  (forall m, m_face (upd m) = m_face m) ->
  fib_metric (m_fib (fib_modify st prefix f upd)) prefix f
  = option_map upd (fib_metric (m_fib st) prefix f).
Proof.
  intros st prefix f upd Hu. unfold fib_modify, fib_metric, fib_find. node_simpl.
  induction (m_fib st) as [|fe fb IH]; simpl; [reflexivity|].
  destruct (name_eqb (fib_prefix fe) prefix) eqn:E; simpl; rewrite ?E; [|exact IH].
  clear IH. induction (fib_faces fe) as [|m ms IHm]; simpl; [reflexivity|].
  destruct (m_face m =? f) eqn:Em; simpl; rewrite ?Hu, ?Em; [reflexivity|exact IHm].
Qed.

Lemma OnDataDelayed_keeps : forall st h payload packet,
  let st' := OnDataDelayed st h payload packet in
  m_fib st' = m_fib st /\ m_contentStore st' = m_contentStore st.
Proof.
  intros st h payload packet st'. subst st'. unfold OnDataDelayed.
  destruct (pit_lookup (m_pit st) (ch_name h)) as [e|]; [|split; reflexivity].
  rewrite fanout_eq. destruct (0 <? length (pe_incoming e)); node_simpl; split; reflexivity.
Qed.

Lemma cs_lookup_add : forall st h payload,
  cs_lookup (cs_add st h payload) (ch_name h) = Some (h, payload).
Proof. intros st h payload. unfold cs_lookup, cs_add. simpl. rewrite name_eqb_refl. reflexivity. Qed.

(** X11.  Data answering an Interest sent on face [g] refreshes that face's
    FIB metric: the status becomes green and the smoothed RTT takes the
    sample "now minus the send time of the outgoing entry"; the Data is
    then held in the content store. *)
Theorem OnData_solicited_updates : forall st g h payload packet e out,
  pit_lookup (m_pit st) (ch_name h) = Some e ->
  findOutgoing e g = Some out ->
  let st' := OnData st g h payload packet in
  fib_metric (m_fib st') (pe_fibPrefix e) g
  = option_map (fun m => mkFaceMetric (m_face m) NDN_FIB_GREEN
                           ((7 * m_sRtt m + (m_now st - out_sendTime out)) / 8))
               (fib_metric (m_fib st) (pe_fibPrefix e) g) /\
  cs_lookup st' (ch_name h) = Some (h, payload).
Proof.
  intros st g h payload packet e out Hl Ho st'. subst st'.
  unfold OnData. cbv zeta. set (s0 := Fire st (InData h g)).
  assert (E0 : m_pit s0 = m_pit st) by reflexivity. rewrite E0, Hl, Ho.
  set (s1 := UpdateFaceRtt s0 (pe_fibPrefix e) g (m_now s0 - out_sendTime out)).
  set (s2 := UpdateStatus s1 (pe_fibPrefix e) g NDN_FIB_GREEN).
  assert (Hf : fib_metric (m_fib s2) (pe_fibPrefix e) g
               = option_map (fun m => mkFaceMetric (m_face m) NDN_FIB_GREEN
                                        ((7 * m_sRtt m + (m_now st - out_sendTime out)) / 8))
                            (fib_metric (m_fib st) (pe_fibPrefix e) g)).
  { subst s2 s1. unfold UpdateStatus. rewrite fib_metric_modify by reflexivity.
    unfold UpdateFaceRtt. rewrite fib_metric_modify by reflexivity.
    subst s0. cbn [Fire m_fib m_now]. destruct (fib_metric _ _ _); reflexivity. }
  assert (Hc : cs_lookup (pit_set (cs_add s2 h payload) (RemoveIncoming e g)) (ch_name h)
               = Some (h, payload)) by apply cs_lookup_add.
  set (s3 := pit_set (cs_add s2 h payload) (RemoveIncoming e g)) in *.
  assert (Hf3 : m_fib s3 = m_fib s2) by reflexivity.
  destruct (length (pe_incoming (RemoveIncoming e g)) =? 0).
  - split; [exact Hf|exact Hc].
  - destruct (OnDataDelayed_keeps s3 h payload packet) as [Hf4 Hc4].
    split; [rewrite Hf4, Hf3; exact Hf|].
    unfold cs_lookup in *. rewrite Hc4. exact Hc.
Qed.

(** X12.  Data matching no PIT entry is never forwarded and leaves the PIT
    and FIB alone: with caching of unsolicited Data it is stored in the
    content store, otherwise it is dropped as unsolicited and the content
    store is left unchanged. *)
Theorem OnData_no_pit_entry : forall st g h payload packet,
  pit_lookup (m_pit st) (ch_name h) = None ->
  let st' := OnData st g h payload packet in
  m_sent st' = m_sent st /\ m_pit st' = m_pit st /\ m_fib st' = m_fib st /\
  (m_cacheUnsolicitedData st = true -> cs_lookup st' (ch_name h) = Some (h, payload)) /\
  (m_cacheUnsolicitedData st = false ->
   m_contentStore st' = m_contentStore st /\
   m_trace st' = m_trace st ++ [InData h g; DropData h UNSOLICITED g]).
Proof.
  intros st g h payload packet Hl st'. subst st'.
  unfold OnData. cbv zeta. cbn [m_pit Fire]. rewrite Hl.
  change (m_cacheUnsolicitedData (Fire st (InData h g))) with (m_cacheUnsolicitedData st).
  destruct (m_cacheUnsolicitedData st) eqn:Ec.
  - split; [reflexivity|]. split; [reflexivity|]. split; [reflexivity|].
    split; [intros _; apply cs_lookup_add|discriminate].
  - node_simpl. split; [reflexivity|]. split; [reflexivity|]. split; [reflexivity|].
    split; [discriminate|]. intros _. split; [reflexivity|]. rewrite <- app_assoc. reflexivity.
Qed.

(** X13.  A NACK is ignored, apart from the trace, when no PIT entry matches
    its name (it is then dropped as NON_DUPLICATED) or when the entry has no
    outgoing-entry for the face it came on: the forwarding strategy is not
    consulted and nothing is sent, nor is the PIT or the FIB changed. *)
Theorem OnNack_ignored : forall PI st f h,
  (pit_lookup (m_pit st) (ih_name h) = None ->
   OnNack PI st f h = Fire (Fire st (InNack h f)) (DropNack h NON_DUPLICATED f)) /\
  (forall e, pit_lookup (m_pit st) (ih_name h) = Some e -> findOutgoing e f = None ->
   OnNack PI st f h = Fire st (InNack h f)).
Proof.
  intros PI st f h. split.
  - intros Hl. unfold OnNack. cbn [m_pit Fire]. rewrite Hl. reflexivity.
  - intros e Hl Ho. unfold OnNack. cbn [m_pit Fire]. rewrite Hl, Ho. reflexivity.
Qed.

Lemma PitLookupOrCreate_fail : forall st h,
  pit_lookup (m_pit st) (ih_name h) = None ->
  (0 < m_pitMaxSize st /\ m_pitMaxSize st <= length (m_pit st)) \/
  LongestPrefixMatch (m_fib st) (ih_name h) = None ->
  PitLookupOrCreate st h = (st, None).
Proof.
  intros st h Hl Hc. unfold PitLookupOrCreate, PitCreate. rewrite Hl.
  destruct Hc as [[H1 H2]|Hr].
  - apply Nat.ltb_lt in H1. apply Nat.leb_le in H2. rewrite H1, H2. reflexivity.
  - rewrite Hr. destruct (_ && _); reflexivity.
Qed.

Lemma PitLookupOrCreate_new : forall st h fe,
  pit_lookup (m_pit st) (ih_name h) = None ->
  m_pitMaxSize st = 0 \/ length (m_pit st) < m_pitMaxSize st ->
  LongestPrefixMatch (m_fib st) (ih_name h) = Some fe ->
  let e0 := mkPitEntry (ih_name h) (fib_prefix fe) [] [] [] (m_now st + ih_lifetime h) 0 false in
  PitLookupOrCreate st h = (set_pit st (m_pit st ++ [e0]), Some e0).
Proof.
  intros st h fe Hl Hc Hr e0. unfold PitLookupOrCreate, PitCreate. rewrite Hl.
  assert (Hf : (0 <? m_pitMaxSize st) && (m_pitMaxSize st <=? length (m_pit st)) = false).
  { destruct Hc as [H|H]; [rewrite H; reflexivity|].
    apply andb_false_iff. right. apply Nat.leb_gt. exact H. }
  rewrite Hf, Hr. reflexivity.
Qed.

(** X14.  An Interest for a name with no PIT entry, when no entry can be
    created (the PIT is at its size limit, or no FIB route covers the name),
    is dropped with reason PIT_LIMIT and has no other effect: the strategy
    is not consulted and nothing is sent. *)
Theorem OnInterest_pit_limit : forall PI st f h packet,
  pit_lookup (m_pit st) (ih_name h) = None ->
  (0 < m_pitMaxSize st /\ m_pitMaxSize st <= length (m_pit st)) \/
  LongestPrefixMatch (m_fib st) (ih_name h) = None ->
  OnInterest PI st f h packet = Fire (Fire st (InInterest h f)) (DropInterest h PIT_LIMIT f).
Proof.
  intros PI st f h packet Hl Hc. unfold OnInterest.
  rewrite PitLookupOrCreate_Fire, (PitLookupOrCreate_fail st h Hl Hc). reflexivity.
Qed.

Lemma PropagateStage_unforwardable : forall PI st n f h packet,
  (forall s n' g h' p, PI s n' g h' p = (s, false)) ->
  PropagateStage PI st n f h packet false = GiveUpInterest (Fire st (DropInterest h NO_FACES f)) n h.
Proof.
  intros PI st n f h packet HPI. unfold PropagateStage. rewrite HPI. reflexivity.
Qed.

(** X15.  Every Interest is answered: a new Interest (no PIT entry yet, room
    in the PIT, a FIB route, no cached Data) that the forwarding strategy
    cannot send anywhere is answered, with NACKs enabled, by exactly one
    give-up NACK back on its incoming face; its PIT entry is left erased,
    with no incoming or outgoing faces, and remembers the nonce. *)
Theorem OnInterest_unforwardable_nacked : forall PI st f h packet fe,
  (forall s n g h' p, PI s n g h' p = (s, false)) ->
  pit_lookup (m_pit st) (ih_name h) = None ->
  m_pitMaxSize st = 0 \/ length (m_pit st) < m_pitMaxSize st ->
  LongestPrefixMatch (m_fib st) (ih_name h) = Some fe ->
  cs_lookup st (ih_name h) = None ->
  m_nacksEnabled st = true ->
  let st' := OnInterest PI st f h packet in
  m_sent st' = m_sent st ++ [(f, PInterest (SetNack h NACK_GIVEUP_PIT))] /\
  exists e', pit_lookup (m_pit st') (ih_name h) = Some e' /\ pe_erased e' = true /\
             pe_incoming e' = [] /\ pe_outgoing e' = [] /\ In (ih_nonce h) (pe_seenNonces e').
Proof.
  intros PI st f h packet fe HPI Hl Hc Hr Hcs En st'. subst st'.
  pose proof (PitLookupOrCreate_new st h fe Hl Hc Hr) as Hn. cbv zeta in Hn.
  set (e0 := mkPitEntry (ih_name h) (fib_prefix fe) [] [] [] (m_now st + ih_lifetime h) 0 false)
    in Hn.
  set (st1 := set_pit st (m_pit st ++ [e0])) in Hn.
  assert (Hnd : IsNonceSeen e0 (ih_nonce h) = false) by reflexivity.
  rewrite (OnInterest_nondup_eq PI st f h packet st1 e0 Hn Hnd). cbv zeta.
  assert (Hfi : findIncoming e0 f = false) by reflexivity.
  assert (Hfo : findOutgoing e0 f = None) by reflexivity.
  rewrite Hfi, Hfo.
  set (e2 := AddIncoming (AddSeenNonce e0 (ih_nonce h)) f (m_now st1)).
  assert (He2 : e2 = mkPitEntry (ih_name h) (fib_prefix fe) [mkIncoming f (m_now st)] []
                                [ih_nonce h] (m_now st + ih_lifetime h) 0 false) by reflexivity.
  set (s := pit_set (Fire st1 (InInterest h f)) e2).
  assert (Hcs' : cs_lookup s (ih_name h) = None) by exact Hcs.
  rewrite Hcs'.
  assert (Hnew : (length (pe_incoming e0) =? 0) && (length (pe_outgoing e0) =? 0) = true)
    by reflexivity.
  rewrite Hnew. cbn [andb negb].
  set (e3 := UpdateLifetime e2 (m_now s) (ih_lifetime h)).
  set (s' := pit_set s e3).
  rewrite (PropagateStage_unforwardable PI s' (pe_name e2) f h packet HPI).
  assert (Hn2 : pe_name e2 = ih_name h) by (rewrite He2; reflexivity).
  assert (Hn3 : pe_name e3 = ih_name h) by exact Hn2.
  assert (Hl1 : pit_lookup (m_pit st1) (ih_name h) = Some e0).
  { subst st1. cbn [set_pit m_pit]. unfold pit_lookup in *. rewrite find_app_none by exact Hl.
    simpl. rewrite name_eqb_refl. reflexivity. }
  assert (Hls : pit_lookup (m_pit s) (ih_name h) = Some e2).
  { subst s. rewrite <- Hn2. apply pit_lookup_set_same with (e0 := e0). rewrite Hn2. exact Hl1. }
  assert (Hls' : pit_lookup (m_pit (Fire s' (DropInterest h NO_FACES f))) (ih_name h) = Some e3).
  { cbn [Fire m_pit]. subst s'. rewrite <- Hn3. apply pit_lookup_set_same with (e0 := e2).
    rewrite Hn3. exact Hls. }
  assert (En' : m_nacksEnabled (Fire s' (DropInterest h NO_FACES f)) = true) by exact En.
  rewrite Hn2.
  destruct (GiveUpInterest_nacks _ (ih_name h) h e3 Hls' En') as [Hsent Hpit].
  split.
  - rewrite Hsent. subst e3. rewrite He2. reflexivity.
  - eexists. split; [exact Hpit|]. subst e3. rewrite He2. cbn. repeat split. left. reflexivity.
Qed.

(** ** Concrete runs of the extra properties *)




Lemma OnData_solicited_updates_witness :
  fib_metric (m_fib (OnData ex_node 4 ex_data [9] (PData ex_data [9]))) [7] 4
  = Some (mkFaceMetric 4 NDN_FIB_GREEN 7) /\
  cs_lookup (OnData ex_node 4 ex_data [9] (PData ex_data [9])) [7] = Some (ex_data, [9]).
Proof.
  destruct (OnData_solicited_updates ex_node 4 ex_data [9] (PData ex_data [9]) ex_entry
              (mkOutgoing 4 1 false) eq_refl eq_refl) as [H1 H2].
  split; [exact H1|exact H2].
Defined.

Lemma OnData_no_pit_entry_witness :
  m_trace (OnData ex_node 4 (mkContentObjectHeader [8]) [9] (PData (mkContentObjectHeader [8]) [9]))
  = [InData (mkContentObjectHeader [8]) 4; DropData (mkContentObjectHeader [8]) UNSOLICITED 4].
Proof.
  destruct (OnData_no_pit_entry ex_node 4 (mkContentObjectHeader [8]) [9]
              (PData (mkContentObjectHeader [8]) [9]) eq_refl) as [_ [_ [_ [_ H]]]].
  exact (proj2 (H eq_refl)).
Defined.

Lemma OnInterest_pit_limit_witness :
  OnInterest FloodingStrategy ex_node 5 (mkInterestHeader [8] 1 4 NORMAL_INTEREST)
             (PInterest (mkInterestHeader [8] 1 4 NORMAL_INTEREST))
  = Fire (Fire ex_node (InInterest (mkInterestHeader [8] 1 4 NORMAL_INTEREST) 5))
         (DropInterest (mkInterestHeader [8] 1 4 NORMAL_INTEREST) PIT_LIMIT 5).
Proof.
  apply OnInterest_pit_limit; [reflexivity|right; reflexivity].
Defined.

Lemma OnInterest_unforwardable_nacked_witness :
  m_sent (OnInterest (fun s _ _ _ _ => (s, false)) ex_node 5
            (mkInterestHeader [7; 1] 9 4 NORMAL_INTEREST)
            (PInterest (mkInterestHeader [7; 1] 9 4 NORMAL_INTEREST)))
  = [(5, PInterest (mkInterestHeader [7; 1] 9 4 NACK_GIVEUP_PIT))].
Proof.
  destruct (OnInterest_unforwardable_nacked (fun s _ _ _ _ => (s, false)) ex_node 5
              (mkInterestHeader [7; 1] 9 4 NORMAL_INTEREST)
              (PInterest (mkInterestHeader [7; 1] 9 4 NORMAL_INTEREST))
              (mkFibEntry [7] [mkFaceMetric 4 NDN_FIB_GREEN 8])
              (fun _ _ _ _ _ => eq_refl) eq_refl (or_introl eq_refl) eq_refl eq_refl eq_refl)
    as [H _].
  exact H.
Defined.
